(** * Chat-Book: presence and message-delivery core

    A shallow embedding of the WebSocket handlers of [registerRoutes]
    (the [ws.on('message')] and [ws.on('close')] callbacks and
    [broadcastToAll]), of the message operations of [DatabaseStorage]
    ([createMessage], [getMessagesBetweenUsers], [markMessagesAsRead],
    [updateUserOnlineStatus]) and of the zod [messageSchema]; further
    down, of the user and chat-list queries of [DatabaseStorage] and of the
    session-protected HTTP routes (login, logout, current user,
    conversation).

    Modelling decisions, in one place:
    - A WebSocket is a [conn] (object identity); [ws.readyState] is read
      from the [World] of the handler invocation.
    - [connectedUsers] (a JS [Map<string, WebSocket>]) is an association
      list in insertion order: the close handler takes the FIRST entry
      bound to the closing socket, and [forEach] visits entries in that
      order.
    - Every handler invocation runs to completion: an [await] is
      sequential composition.  Whether the awaited store call succeeds,
      the clock and the id the database generates are read from the
      [World].
    - Everything observable is appended to a trace of [effect]s: store
      calls, [ws.send], one entry per [broadcastToAll], [console.error]. *)

From Stdlib Require Import ZArith Ascii String List Bool Lia Permutation Sorted.
From stdpp Require Import base list sorting strings.
Import ListNotations.
Local Open Scope string_scope.
Local Open Scope Z_scope.
Local Open Scope list_scope.

Set Default Proof Using "Type".
Set Warnings "-register-all".

(** ** Values that arrive on the wire *)

(** The result of [JSON.parse].  Numbers only travel through the model
    (they are rejected by the schema or copied into a [typing] event), so
    the integral ones are enough. *)
Inductive json : Type :=
| JNull
| JBool (b : bool)
| JNum (n : Z)
| JStr (s : string)
| JArr (items : list json)
| JObj (members : list (string * json)).

(** [o.k] on a parsed value: [undefined] ([None]) unless [o] is an object
    with an own property [k].  [members] lists the own properties of the
    parsed object, so keys are distinct. *)
Fixpoint assoc {A} (k : string) (ms : list (string * A)) : option A :=
  match ms with
  | [] => None
  | (k', v) :: rest => if String.eqb k' k then Some v else assoc k rest
  end.

Definition prop (k : string) (j : json) : option json :=
  match j with
  | JObj ms => assoc k ms
  | _ => None
  end.

(** A WebSocket object, by identity. *)
Definition conn := nat.

Inductive ReadyState := CONNECTING | OPEN | CLOSING | CLOSED.

Definition ReadyState_eqb (a b : ReadyState) : bool :=
  match a, b with
  | CONNECTING, CONNECTING | OPEN, OPEN | CLOSING, CLOSING | CLOSED, CLOSED => true
  | _, _ => false
  end.

(** ** shared/schema: rows and the insert schema *)

Module User.
(** [typeof users.$inferSelect]. Timestamps are milliseconds. *)
Record t := {
  id : string;
  username : string;
  password : string;
  displayName : string;
  avatar : option string;
  status : option string;
  isOnline : option bool;
  lastSeen : option Z;
  createdAt : option Z;
  updatedAt : option Z;
}.
End User.

Module InsertMessage.
(** [z.infer<typeof messageSchema>], after the default of
    [messageType] has been applied. *)
Record t := {
  senderId : string;
  receiverId : string;
  content : string;
  messageType : string;
  imageUrl : option string;
}.
End InsertMessage.

Module Message.
(** [typeof messages.$inferSelect]: [messageType], [imageUrl], [isRead]
    and [createdAt] are nullable columns. *)
Record t := {
  id : string;
  senderId : string;
  receiverId : string;
  content : string;
  messageType : option string;
  imageUrl : option string;
  isRead : option bool;
  createdAt : option Z;
}.

Definition set_isRead (b : option bool) (m : t) : t :=
  {| id := id m; senderId := senderId m; receiverId := receiverId m;
     content := content m; messageType := messageType m;
     imageUrl := imageUrl m; isRead := b; createdAt := createdAt m |}.
End Message.

(** *** messageSchema

    [createInsertSchema(messages).omit({id, createdAt, isRead}).extend(..)]
    is the object schema
    [{ senderId: z.string(), receiverId: z.string(),
       content: z.string().min(1).max(1000),
       messageType: z.enum(["text","image"]).default("text"),
       imageUrl: z.string().optional() }];
    unknown keys are stripped. A field parser returns [None] for an issue. *)

Definition z_string (v : option json) : option string :=
  match v with
  | Some (JStr s) => Some s
  | _ => None
  end.

(** [z.string().min(1, ..).max(1000)]; [length] counts code units. *)
Definition z_content (v : option json) : option string :=
  match z_string v with
  | Some s =>
      if (1 <=? String.length s)%nat && (String.length s <=? 1000)%nat
      then Some s else None
  | None => None
  end.

(** [z.enum(["text", "image"]).default("text")] *)
Definition z_messageType (v : option json) : option string :=
  match v with
  | None => Some "text"
  | Some (JStr s) =>
      if String.eqb s "text" || String.eqb s "image" then Some s else None
  | Some _ => None
  end.

(** [z.string().optional()] *)
Definition z_optional_string (v : option json) : option (option string) :=
  match v with
  | None => Some None
  | Some (JStr s) => Some (Some s)
  | Some _ => None
  end.

(** The fields with an issue, in schema order (the paths of
    [ZodError.issues]). *)
Definition issue {A} (field : string) (r : option A) : list string :=
  match r with
  | Some _ => []
  | None => [field]
  end.

Inductive parse_result :=
| Valid (messageData : InsertMessage.t)
| ZodError (issues : list string).

Definition messageSchema_parse (input : option json) : parse_result :=
  match input with
  | Some (JObj ms) =>
      let data := JObj ms in
      let senderId := z_string (prop "senderId" data) in
      let receiverId := z_string (prop "receiverId" data) in
      let content := z_content (prop "content" data) in
      let messageType := z_messageType (prop "messageType" data) in
      let imageUrl := z_optional_string (prop "imageUrl" data) in
      match senderId, receiverId, content, messageType, imageUrl with
      | Some s, Some r, Some c, Some t, Some i =>
          Valid {| InsertMessage.senderId := s;
                   InsertMessage.receiverId := r;
                   InsertMessage.content := c;
                   InsertMessage.messageType := t;
                   InsertMessage.imageUrl := i |}
      | _, _, _, _, _ =>
          ZodError (issue "senderId" senderId ++ issue "receiverId" receiverId
                    ++ issue "content" content
                    ++ issue "messageType" messageType
                    ++ issue "imageUrl" imageUrl)
      end
  | _ => ZodError [""]
  end.

(** ** server/storage.ts: the durable store *)

Record Database := {
  users : list User.t;
  messages : list Message.t;
}.

(** What one handler invocation reads from its environment. *)
Record World := {
  store_up : bool;                  (* does the awaited store call resolve? *)
  now : Z;                          (* [new Date()] / [now()] *)
  uuid : string;                    (* [gen_random_uuid()] *)
  readyState : conn -> ReadyState;  (* [ws.readyState] of every socket *)
}.

Definition is_open (w : World) (ws : conn) : bool :=
  ReadyState_eqb (readyState w ws) OPEN.

(** [update(users).set({isOnline, lastSeen, updatedAt}).where(eq(users.id, id))] *)
Definition set_online (isOnline : bool) (t : Z) (u : User.t) : User.t :=
  {| User.id := User.id u; User.username := User.username u;
     User.password := User.password u; User.displayName := User.displayName u;
     User.avatar := User.avatar u; User.status := User.status u;
     User.isOnline := Some isOnline; User.lastSeen := Some t;
     User.createdAt := User.createdAt u; User.updatedAt := Some t |}.

Definition updateUserOnlineStatus (w : World) (id : string) (isOnline : bool)
    (d : Database) : Database :=
  {| users := map (fun u => if String.eqb (User.id u) id
                            then set_online isOnline (now w) u else u)
                  (users d);
     messages := messages d |}.

(** The row that [insert(messages).values(message).returning()] yields:
    [id], [isRead] and [createdAt] take their column defaults. *)
Definition new_row (w : World) (message : InsertMessage.t) : Message.t :=
  {| Message.id := uuid w;
     Message.senderId := InsertMessage.senderId message;
     Message.receiverId := InsertMessage.receiverId message;
     Message.content := InsertMessage.content message;
     Message.messageType := Some (InsertMessage.messageType message);
     Message.imageUrl := InsertMessage.imageUrl message;
     Message.isRead := Some false;
     Message.createdAt := Some (now w) |}.

Definition createMessage (w : World) (message : InsertMessage.t)
    (d : Database) : Database * Message.t :=
  let newMessage := new_row w message in
  ({| users := users d; messages := messages d ++ [newMessage] |}, newMessage).

(** [or(and(eq(senderId, userId1), eq(receiverId, userId2)),
        and(eq(senderId, userId2), eq(receiverId, userId1)))] *)
Definition between (userId1 userId2 : string) (m : Message.t) : bool :=
  (String.eqb (Message.senderId m) userId1
   && String.eqb (Message.receiverId m) userId2)
  || (String.eqb (Message.senderId m) userId2
      && String.eqb (Message.receiverId m) userId1).

(** [asc(messages.createdAt)]: Postgres sorts NULL last in ascending order. *)
Definition created_leb (a b : option Z) : bool :=
  match a, b with
  | Some x, Some y => x <=? y
  | _, None => true
  | None, Some _ => false
  end.

Definition created_le (m1 m2 : Message.t) : Prop :=
  created_leb (Message.createdAt m1) (Message.createdAt m2) = true.

#[global] Instance created_le_dec : RelDecision created_le.
Proof. intros m1 m2. unfold created_le. apply bool_eq_dec. Defined.

(** Postgres leaves the order of rows with equal [createdAt] open; the
    model sorts with one fixed merge sort. *)
Definition orderBy_createdAt_asc : list Message.t -> list Message.t :=
  merge_sort created_le.

(** [limit: number = 50]: [None] is the omitted argument. *)
Definition getMessagesBetweenUsers (userId1 userId2 : string)
    (limit : option nat) (d : Database) : list Message.t :=
  let limit := match limit with Some n => n | None => 50%nat end in
  firstn limit
    (orderBy_createdAt_asc
       (List.filter (between userId1 userId2) (messages d))).

(** [and(eq(senderId, senderId), eq(receiverId, receiverId), eq(isRead, false))] *)
Definition unread_from_to (senderId receiverId : string) (m : Message.t) : bool :=
  String.eqb (Message.senderId m) senderId
  && String.eqb (Message.receiverId m) receiverId
  && match Message.isRead m with Some false => true | _ => false end.

Definition markMessagesAsRead (senderId receiverId : string)
    (d : Database) : Database :=
  {| users := users d;
     messages := map (fun m => if unread_from_to senderId receiverId m
                               then Message.set_isRead (Some true) m else m)
                     (messages d) |}.

(** ** server/routes.ts: the WebSocket side *)

(** *** connectedUsers: a JS Map in insertion order *)

Definition Registry := list (string * conn).

Fixpoint map_get (k : string) (m : Registry) : option conn :=
  match m with
  | [] => None
  | (k', v) :: rest => if String.eqb k' k then Some v else map_get k rest
  end.

(** [Map.prototype.set]: an existing key keeps its position. *)
Fixpoint map_set (k : string) (v : conn) (m : Registry) : Registry :=
  match m with
  | [] => [(k, v)]
  | (k', v') :: rest =>
      if String.eqb k' k then (k', v) :: rest else (k', v') :: map_set k v rest
  end.

Definition map_delete (k : string) (m : Registry) : Registry :=
  List.filter (fun e => negb (String.eqb (fst e) k)) m.

(** The keys of a Map are pairwise distinct. *)
Definition registry_wf (m : Registry) : Prop := List.NoDup (map fst m).

(** The identities under which a socket is bound, in Map order. *)
Definition bound_as (ws : conn) (m : Registry) : list string :=
  map fst (List.filter (fun e => Nat.eqb (snd e) ws) m).

(** *** Events and the observable trace *)

(** Server-to-client events, before [JSON.stringify]. *)
Inductive server_event :=
| user_online (userId : string)
| user_offline (userId : string)
| new_message (message : Message.t)
| message_sent (message : Message.t)
| user_status_update (userId : string) (lastSeen : Z) (isOnline : bool)
| typing (senderId isTyping : option json).

Inductive store_call :=
| UpdateUserOnlineStatus (id : string) (isOnline : bool)
| CreateMessage (message : InsertMessage.t).

Inductive effect :=
| Store (call : store_call) (resolved : bool)    (* an awaited storage call *)
| Send (ws : conn) (ev : server_event)           (* one [ws.send] *)
| Broadcast (ev : server_event) (to : list conn) (* one [broadcastToAll] *)
| ConsoleError                                   (* the handler's [catch] *)
| UnhandledRejection.                            (* a throw nobody catches *)

Record Server := {
  connectedUsers : Registry;
  db : Database;
}.

(** *** A state-and-exception monad for the handler bodies *)

Inductive outcome (A : Type) :=
| Returned (a : A)
| Thrown.
Arguments Returned {A} a.
Arguments Thrown {A}.

Definition M (A : Type) : Type := Server -> outcome A * Server * list effect.

Definition ret {A} (a : A) : M A := fun s => (Returned a, s, []).

Definition bind {A B} (m : M A) (f : A -> M B) : M B :=
  fun s =>
    match m s with
    | (Returned a, s1, t1) =>
        match f a s1 with (r, s2, t2) => (r, s2, t1 ++ t2) end
    | (Thrown, s1, t1) => (Thrown, s1, t1)
    end.

Definition throw {A} : M A := fun s => (Thrown, s, []).

(** [try { body } catch (error) { handler }] *)
Definition try_catch {A} (body handler : M A) : M A :=
  fun s =>
    match body s with
    | (Returned a, s1, t1) => (Returned a, s1, t1)
    | (Thrown, s1, t1) =>
        match handler s1 with (r, s2, t2) => (r, s2, t1 ++ t2) end
    end.

Definition emit (e : effect) : M unit := fun s => (Returned tt, s, [e]).

Declare Scope handler_scope.
Delimit Scope handler_scope with handler.
Notation "x <- c1 ;; c2" := (bind c1 (fun x => c2))
  (at level 100, c1 at next level, right associativity) : handler_scope.
Notation "c1 ;; c2" := (bind c1 (fun _ => c2))
  (at level 100, right associativity) : handler_scope.
Local Open Scope handler_scope.

(** An event handler is called by the emitter, which does not await it:
    what the handler throws becomes an unhandled rejection. *)
Definition run (m : M unit) (s : Server) : Server * list effect :=
  match m s with
  | (Returned _, s', t) => (s', t)
  | (Thrown, s', t) => (s', t ++ [UnhandledRejection])
  end.

(** *** Primitives *)

Definition connectedUsers_get (k : option string) : M (option conn) :=
  fun s => (Returned (match k with
                      | Some k => map_get k (connectedUsers s)
                      | None => None
                      end), s, []).

Definition connectedUsers_set (k : string) (ws : conn) : M unit :=
  fun s => (Returned tt,
            {| connectedUsers := map_set k ws (connectedUsers s); db := db s |},
            []).

Definition connectedUsers_delete (k : string) : M unit :=
  fun s => (Returned tt,
            {| connectedUsers := map_delete k (connectedUsers s); db := db s |},
            []).

Definition connectedUsers_entries : M Registry :=
  fun s => (Returned (connectedUsers s), s, []).

Definition storage_updateUserOnlineStatus (w : World) (id : string)
    (isOnline : bool) : M unit :=
  fun s =>
    if store_up w
    then (Returned tt,
          {| connectedUsers := connectedUsers s;
             db := updateUserOnlineStatus w id isOnline (db s) |},
          [Store (UpdateUserOnlineStatus id isOnline) true])
    else (Thrown, s, [Store (UpdateUserOnlineStatus id isOnline) false]).

Definition storage_createMessage (w : World) (message : InsertMessage.t)
    : M Message.t :=
  fun s =>
    if store_up w
    then match createMessage w message (db s) with
         | (d, newMessage) =>
             (Returned newMessage,
              {| connectedUsers := connectedUsers s; db := d |},
              [Store (CreateMessage message) true])
         end
    else (Thrown, s, [Store (CreateMessage message) false]).

Definition ws_send (ws : conn) (ev : server_event) : M unit :=
  emit (Send ws ev).

Definition console_error : M unit := emit ConsoleError.

(** [connectedUsers.forEach(ws => { if (ws.readyState === OPEN) ws.send(..) })] *)
Definition open_sockets (w : World) (m : Registry) : list conn :=
  List.filter (is_open w) (map snd m).

Definition broadcastToAll (w : World) (message : server_event) : M unit :=
  fun s => (Returned tt, s, [Broadcast message (open_sockets w (connectedUsers s))]).

(** *** Inbound frames *)

(** The object [JSON.parse(data.toString())] yields, seen through the
    properties the handler reads; [None] is [undefined].  [userId] and
    [receiverId] are keys of [connectedUsers : Map<string, WebSocket>] and
    arguments of [updateUserOnlineStatus(id: string, ..)], hence strings;
    the other properties are any JSON value. *)
Record ws_message := {
  msg_type : option json;
  msg_userId : option string;
  msg_data : option json;
  msg_senderId : option json;
  msg_receiverId : option string;
  msg_isTyping : option json;
}.

(** [Unparseable]: [JSON.parse] throws, or yields [null] and [message.type]
    throws. *)
Inductive frame :=
| Unparseable
| Parsed (message : ws_message).

Definition JSON_parse (data : frame) : M ws_message :=
  match data with
  | Unparseable => throw
  | Parsed message => ret message
  end.

(** [message.type === t] *)
Definition type_is (t : string) (message : ws_message) : bool :=
  match msg_type message with
  | Some (JStr s) => String.eqb s t
  | _ => false
  end.

(** [if (userId)]: [undefined] and the empty string are falsy. *)
Definition truthy (userId : option string) : option string :=
  match userId with
  | Some s => if String.eqb s "" then None else Some s
  | None => None
  end.

(** [messageSchema.parse(..)] throws a [ZodError] on any issue. *)
Definition parse_messageData (input : option json) : M InsertMessage.t :=
  match messageSchema_parse input with
  | Valid messageData => ret messageData
  | ZodError _ => throw
  end.

(** *** ws.on('message', async (data) => { try { .. } catch { .. } }) *)

Definition on_message (w : World) (ws : conn) (data : frame) : M unit :=
  try_catch
    (message <- JSON_parse data ;;
     if type_is "auth" message then
       match truthy (msg_userId message) with
       | Some userId =>
           connectedUsers_set userId ws ;;
           storage_updateUserOnlineStatus w userId true ;;
           broadcastToAll w (user_online userId)
       | None => ret tt
       end
     else if type_is "chat_message" message then
       messageData <- parse_messageData (msg_data message) ;;
       savedMessage <- storage_createMessage w messageData ;;
       recipientWs <- connectedUsers_get
                        (Some (InsertMessage.receiverId messageData)) ;;
       match recipientWs with
       | Some recipientWs =>
           if is_open w recipientWs
           then ws_send recipientWs (new_message savedMessage)
           else ret tt
       | None => ret tt
       end ;;
       if is_open w ws
       then ws_send ws (message_sent savedMessage)
       else ret tt
     else if type_is "update_last_seen" message then
       match truthy (msg_userId message) with
       | Some userId =>
           storage_updateUserOnlineStatus w userId true ;;
           broadcastToAll w (user_status_update userId (now w) true)
       | None => ret tt
       end
     else if type_is "typing" message then
       recipientWs <- connectedUsers_get (msg_receiverId message) ;;
       match recipientWs with
       | Some recipientWs =>
           if is_open w recipientWs
           then ws_send recipientWs
                  (typing (msg_senderId message) (msg_isTyping message))
           else ret tt
       | None => ret tt
       end
     else ret tt)
    console_error.

(** *** ws.on('close', async () => { for (..) { if (userWs === ws) {..; break} } }) *)

Fixpoint close_loop (w : World) (ws : conn) (entries : Registry) : M unit :=
  match entries with
  | [] => ret tt
  | (userId, userWs) :: rest =>
      if Nat.eqb userWs ws then
        connectedUsers_delete userId ;;
        storage_updateUserOnlineStatus w userId false ;;
        broadcastToAll w (user_offline userId)
      else close_loop w ws rest
  end.

Definition on_close (w : World) (ws : conn) : M unit :=
  entries <- connectedUsers_entries ;;
  close_loop w ws entries.

(** *** The server as a transition system *)

Inductive input :=
| Message (ws : conn) (data : frame)
| Close (ws : conn).

Definition step (w : World) (i : input) (s : Server) : Server * list effect :=
  match i with
  | Message ws data => run (on_message w ws data) s
  | Close ws => run (on_close w ws) s
  end.

(** Inputs are handled one after the other, each in its own world. *)
Fixpoint steps (inputs : list (World * input)) (s : Server)
    : Server * list effect :=
  match inputs with
  | [] => (s, [])
  | (w, i) :: rest =>
      match step w i s with
      | (s1, t1) =>
          match steps rest s1 with (s2, t2) => (s2, t1 ++ t2) end
      end
  end.

(** *** Reading a trace *)

Definition store_calls (t : list effect) : list (store_call * bool) :=
  flat_map (fun e => match e with Store c ok => [(c, ok)] | _ => [] end) t.

Definition broadcasts (t : list effect) : list server_event :=
  flat_map (fun e => match e with Broadcast ev _ => [ev] | _ => [] end) t.

(** Every [ws.send], direct or from a broadcast, in order. *)
Definition deliveries (t : list effect) : list (conn * server_event) :=
  flat_map (fun e => match e with
                     | Send ws ev => [(ws, ev)]
                     | Broadcast ev to => map (fun ws => (ws, ev)) to
                     | _ => []
                     end) t.

Definition is_user_online (ev : server_event) : bool :=
  match ev with user_online _ => true | _ => false end.

Definition is_user_offline (ev : server_event) : bool :=
  match ev with user_offline _ => true | _ => false end.

Definition is_new_message (ev : server_event) : bool :=
  match ev with new_message _ => true | _ => false end.

Definition is_message_sent (ev : server_event) : bool :=
  match ev with message_sent _ => true | _ => false end.

(** The deliveries of one kind of event. *)
Definition deliveries_of (kind : server_event -> bool) (t : list effect)
    : list (conn * server_event) :=
  List.filter (fun d => kind (snd d)) (deliveries t).

(** The handler neither logged an error nor threw. *)
Definition completed (t : list effect) : Prop :=
  ~ In ConsoleError t /\ ~ In UnhandledRejection t.

(** A socket bound under no identity, as is every socket that has not
    sent an auth handshake (see [steps_keep_unauthenticated]). *)
Definition unauthenticated (ws : conn) (s : Server) : Prop :=
  bound_as ws (connectedUsers s) = [].

(** The [ws.send] calls of the chat branch, in order. *)
Definition to_recipient (w : World) (s : Server)
    (messageData : InsertMessage.t) : list effect :=
  match map_get (InsertMessage.receiverId messageData) (connectedUsers s) with
  | Some recipientWs =>
      if is_open w recipientWs
      then [Send recipientWs (new_message (new_row w messageData))]
      else []
  | None => []
  end.

Definition to_sender (w : World) (ws : conn)
    (messageData : InsertMessage.t) : list effect :=
  if is_open w ws
  then [Send ws (message_sent (new_row w messageData))]
  else [].

(** [connectedUsers.get(message.receiverId)] *)
Definition lookup_receiver (s : Server) (receiverId : option string)
    : option conn :=
  match receiverId with
  | Some k => map_get k (connectedUsers s)
  | None => None
  end.

Definition frame_type_is (t : string) (data : frame) : bool :=
  match data with
  | Parsed message => type_is t message
  | Unparseable => false
  end.

(** Is the input an auth handshake arriving on [ws]? *)
Definition handshake_on (ws : conn) (i : input) : bool :=
  match i with
  | Message ws' data => Nat.eqb ws' ws && frame_type_is "auth" data
  | Close _ => false
  end.

(** An auth handshake for [userId], handled while the store is up. *)
Definition auth_for (userId : string) (h : World * ws_message) : Prop :=
  store_up (fst h) = true
  /\ type_is "auth" (snd h) = true
  /\ msg_userId (snd h) = Some userId.

(** Messages arriving on one socket, each in its world. *)
Definition arriving (ws : conn) (hs : list (World * ws_message))
    : list (World * input) :=
  map (fun h => (fst h, Message ws (Parsed (snd h)))) hs.

(** *** Sample data *)

Definition server0 : Server :=
  {| connectedUsers := []; db := {| users := []; messages := [] |} |}.

Definition world_up (t : Z) (id : string) : World :=
  {| store_up := true; now := t; uuid := id; readyState := fun _ => OPEN |}.

Definition world_down (t : Z) : World :=
  {| store_up := false; now := t; uuid := ""; readyState := fun _ => OPEN |}.


Definition auth (userId : string) : frame :=
  Parsed {| msg_type := Some (JStr "auth"); msg_userId := Some userId;
            msg_data := None; msg_senderId := None; msg_receiverId := None;
            msg_isTyping := None |}.

Definition chat_message (data : json) : frame :=
  Parsed {| msg_type := Some (JStr "chat_message"); msg_userId := None;
            msg_data := Some data; msg_senderId := None;
            msg_receiverId := None; msg_isTyping := None |}.

Definition chat_payload (senderId receiverId content : string) : json :=
  JObj [("senderId", JStr senderId); ("receiverId", JStr receiverId);
        ("content", JStr content); ("messageType", JStr "text")].

Definition text_of_length (n : nat) : string :=
  string_of_list_ascii (repeat "a"%char n).

Definition row (id senderId receiverId : string) (createdAt : option Z)
    (isRead : option bool) : Message.t :=
  {| Message.id := id; Message.senderId := senderId;
     Message.receiverId := receiverId; Message.content := "x";
     Message.messageType := Some "text"; Message.imageUrl := None;
     Message.isRead := isRead; Message.createdAt := createdAt |}.

Definition sample_db : Database :=
  {| users := [];
     messages := [row "1" "a" "b" (Some 30) (Some false);
                  row "2" "b" "a" (Some 10) (Some false);
                  row "3" "a" "c" (Some 5) None;
                  row "4" "b" "a" None (Some true);
                  row "5" "a" "b" (Some 20) None] |}.

(** ** server/storage.ts: users, unread counts and the chat list *)

Module PublicUser.
(** [Omit<User, 'password'>] *)
Record t := {
  id : string;
  username : string;
  displayName : string;
  avatar : option string;
  status : option string;
  isOnline : option bool;
  lastSeen : option Z;
  createdAt : option Z;
  updatedAt : option Z;
}.
End PublicUser.

#[global] Instance PublicUser_eq_dec : EqDecision PublicUser.t.
Proof. solve_decision. Defined.

(** [const { password, ...publicUser } = user], and the column list of
    [getOnlineUsers] and [getUserChatList]. *)
Definition publicUser (u : User.t) : PublicUser.t :=
  {| PublicUser.id := User.id u; PublicUser.username := User.username u;
     PublicUser.displayName := User.displayName u;
     PublicUser.avatar := User.avatar u; PublicUser.status := User.status u;
     PublicUser.isOnline := User.isOnline u;
     PublicUser.lastSeen := User.lastSeen u;
     PublicUser.createdAt := User.createdAt u;
     PublicUser.updatedAt := User.updatedAt u |}.

(** [const [user] = await db.select().from(users).where(eq(users.id, id))] *)
Definition getUser (id : string) (d : Database) : option User.t :=
  hd_error (List.filter (fun u => String.eqb (User.id u) id) (users d)).

Definition getUserByUsername (username : string) (d : Database)
    : option User.t :=
  hd_error (List.filter (fun u => String.eqb (User.username u) username)
              (users d)).

(** [where(eq(users.isOnline, true))] *)
Definition is_online (u : User.t) : bool :=
  match User.isOnline u with Some true => true | _ => false end.

Definition getOnlineUsers (d : Database) : list PublicUser.t :=
  map publicUser (List.filter is_online (users d)).

(** [and(eq(messages.receiverId, userId), eq(messages.isRead, false))] *)
Definition unread_to (userId : string) (m : Message.t) : bool :=
  String.eqb (Message.receiverId m) userId
  && match Message.isRead m with Some false => true | _ => false end.

Definition getUnreadMessageCount (userId : string) (d : Database) : nat :=
  length (List.filter (unread_to userId) (messages d)).

Module ChatListEntry.
Record t := {
  user : PublicUser.t;
  lastMessage : option Message.t;
  unreadCount : nat;
}.
End ChatListEntry.

(** The join condition and the [where] of the [chatUsers] query:
    [innerJoin(messages, or(eq(senderId, users.id), eq(receiverId, users.id)))]
    [where(and(or(eq(senderId, userId), eq(receiverId, userId)),
               ne(users.id, userId)))] *)
Definition chats_with (userId : string) (u : User.t) (m : Message.t) : bool :=
  (String.eqb (Message.senderId m) (User.id u)
   || String.eqb (Message.receiverId m) (User.id u))
  && ((String.eqb (Message.senderId m) userId
       || String.eqb (Message.receiverId m) userId)
      && negb (String.eqb (User.id u) userId)).

(** [selectDistinct]: one row per joined pair, duplicates removed. SQL
    leaves the order of the rows open. *)
Definition chatUsers (userId : string) (d : Database) : list PublicUser.t :=
  remove_dups
    (flat_map (fun u =>
                 flat_map (fun m => if chats_with userId u m
                                    then [publicUser u] else [])
                   (messages d))
       (users d)).

(** [desc(messages.createdAt)]: the reverse of the ascending order, so
    Postgres sorts NULL first. *)
Definition orderBy_createdAt_desc : list Message.t -> list Message.t :=
  merge_sort (flip created_le).

(** [a.lastMessage?.createdAt?.getTime() || 0] *)
Definition time_of (e : ChatListEntry.t) : Z :=
  match ChatListEntry.lastMessage e with
  | Some m => match Message.createdAt m with Some t => t | None => 0 end
  | None => 0
  end.

(** The comparator of [chatList.sort((a, b) => bTime - aTime)]. *)
Definition compare_entries (a b : ChatListEntry.t) : Z :=
  time_of b - time_of a.

(** [Array.prototype.sort] is stable: every entry is put behind the
    entries of the sorted prefix that the comparator does not put after
    it. *)
Fixpoint sort_insert (e : ChatListEntry.t) (sorted : list ChatListEntry.t)
    : list ChatListEntry.t :=
  match sorted with
  | [] => [e]
  | e' :: rest =>
      if compare_entries e' e <=? 0
      then e' :: sort_insert e rest
      else e :: e' :: rest
  end.

Definition sort_by_time_desc (l : list ChatListEntry.t)
    : list ChatListEntry.t :=
  fold_left (fun sorted e => sort_insert e sorted) l [].

Definition chat_entry (userId : string) (d : Database) (user : PublicUser.t)
    : ChatListEntry.t :=
  {| ChatListEntry.user := user;
     ChatListEntry.lastMessage :=
       hd_error
         (firstn 1
            (orderBy_createdAt_desc
               (List.filter (between userId (PublicUser.id user))
                  (messages d))));
     ChatListEntry.unreadCount :=
       length (List.filter (unread_from_to (PublicUser.id user) userId)
                 (messages d)) |}.

Definition getUserChatList (userId : string) (d : Database)
    : list ChatListEntry.t :=
  sort_by_time_desc (map (chat_entry userId d) (chatUsers userId d)).

Definition sample_user (id name : string) (isOnline : option bool) : User.t :=
  {| User.id := id; User.username := name; User.password := "$2b$12$hash";
     User.displayName := name; User.avatar := None; User.status := Some "";
     User.isOnline := isOnline; User.lastSeen := None;
     User.createdAt := None; User.updatedAt := None |}.

Definition sample_chat_db : Database :=
  {| users := [sample_user "a" "alice" (Some true);
               sample_user "b" "bob" None;
               sample_user "c" "carol" (Some false)];
     messages := messages sample_db |}.

(** ** server/routes.ts: HTTP routes *)

(** The JSON bodies the routes answer with. *)
Inductive body :=
| Json_message (message : string)
| Json_errors (message : string) (errors : list string)
| Json_user (user : PublicUser.t)
| Json_messages (messages : list Message.t).

Record response := {
  res_status : nat;
  res_body : body;
}.

(** What a route leaves behind: the response and [req.session.userId]. *)
Record reply := {
  res : response;
  session_userId : option string;
}.

Definition res_json (status : nat) (b : body) (session : option string)
    : reply :=
  {| res := {| res_status := status; res_body := b |};
     session_userId := session |}.

(** A storage call that only reads, and [storage.markMessagesAsRead]; [up]
    tells whether the awaited call resolves. *)
Definition storage_query {A} (up : bool) (query : Database -> A) : M A :=
  fun s => if up then (Returned (query (db s)), s, []) else (Thrown, s, []).

Definition storage_markMessagesAsRead (up : bool)
    (senderId receiverId : string) : M unit :=
  fun s =>
    if up
    then (Returned tt,
          {| connectedUsers := connectedUsers s;
             db := markMessagesAsRead senderId receiverId (db s) |},
          [])
    else (Thrown, s, []).

(** [requireAuth]: [if (!req.session?.userId) return res.status(401)..];
    otherwise [req.user = { id: req.session.userId }] and [next()]. *)
Definition requireAuth (session : option string) (next : string -> M reply)
    : M reply :=
  match truthy session with
  | None => ret (res_json 401 (Json_message "Unauthorized") session)
  | Some id => next id
  end.

(** [app.post("/api/auth/logout", requireAuth, ..)] *)
Definition post_logout (w : World) (session : option string) : M reply :=
  requireAuth session (fun id =>
    try_catch
      (storage_updateUserOnlineStatus w id false ;;
       connectedUsers_delete id ;;
       ret (res_json 200 (Json_message "Logged out successfully") None))
      (console_error ;;
       ret (res_json 500 (Json_message "Logout failed") session))).

(** [app.get("/api/auth/user", requireAuth, ..)] *)
Definition get_auth_user (up : bool) (session : option string) : M reply :=
  requireAuth session (fun id =>
    try_catch
      (user <- storage_query up (getUser id) ;;
       match user with
       | None => ret (res_json 404 (Json_message "User not found") session)
       | Some user => ret (res_json 200 (Json_user (publicUser user)) session)
       end)
      (console_error ;;
       ret (res_json 500 (Json_message "Failed to get user") session))).

(** [app.get("/api/chat/messages/:userId", requireAuth, ..)]: the
    conversation is read first and marked as read afterwards. *)
Definition get_chat_messages (up_read up_mark : bool)
    (session : option string) (userId : string) : M reply :=
  requireAuth session (fun id =>
    try_catch
      (messages <- storage_query up_read
                     (getMessagesBetweenUsers id userId None) ;;
       storage_markMessagesAsRead up_mark userId id ;;
       ret (res_json 200 (Json_messages messages) session))
      (console_error ;;
       ret (res_json 500 (Json_message "Failed to get messages") session))).

(** [loginSchema]:
    [z.object({ username: z.string().min(3), password: z.string().min(6) })] *)
Definition z_string_min (n : nat) (v : option json) : option string :=
  match z_string v with
  | Some s => if (n <=? String.length s)%nat then Some s else None
  | None => None
  end.

Definition loginSchema_parse (input : option json)
    : (string * string) + list string :=
  match input with
  | Some (JObj ms) =>
      let username := z_string_min 3 (prop "username" (JObj ms)) in
      let password := z_string_min 6 (prop "password" (JObj ms)) in
      match username, password with
      | Some u, Some p => inl (u, p)
      | _, _ => inr (issue "username" username ++ issue "password" password)
      end
  | _ => inr [""]
  end.

Section login.
(** [bcrypt.compare(password, hash)] *)
Variable bcrypt_compare : string -> string -> bool.

(** [app.post("/api/auth/login", ..)]. The one [try] of the route is split
    where its [catch] answers differently: a [ZodError] has [issues]
    ("Validation error", with the issues as [errors]), any other error has
    none ("Login failed", [errors] undefined and so left out); and
    [req.session.userId] is assigned before the presence write, so it stays
    assigned when that write throws. The response carries the user as
    read before the write. *)
Definition post_login (up_read : bool) (w : World) (session : option string)
    (input : option json) : M reply :=
  match loginSchema_parse input with
  | inr issues =>
      console_error ;;
      ret (res_json 400 (Json_errors "Validation error" issues) session)
  | inl (username, password) =>
      try_catch
        (user <- storage_query up_read (getUserByUsername username) ;;
         match user with
         | None => ret (res_json 401 (Json_message "Invalid credentials") session)
         | Some user =>
             if negb (bcrypt_compare password (User.password user))
             then ret (res_json 401 (Json_message "Invalid credentials") session)
             else
               try_catch
                 (storage_updateUserOnlineStatus w (User.id user) true ;;
                  ret (res_json 200 (Json_user (publicUser user))
                         (Some (User.id user))))
                 (console_error ;;
                  ret (res_json 400 (Json_message "Login failed")
                         (Some (User.id user))))
         end)
        (console_error ;;
         ret (res_json 400 (Json_message "Login failed") session))
  end.
End login.

(** * Properties *)

(** ** The registry *)

Section registry_facts.
Implicit Types (m : Registry) (k : string) (v ws : conn).

Lemma map_get_set_eq k v m : map_get k (map_set k v m) = Some v.
Proof.
  induction m as [|[k' v'] m IH]; simpl.
  - now rewrite String.eqb_refl.
  - destruct (String.eqb k' k) eqn:E; simpl; rewrite E; auto.
Qed.

Lemma map_get_set_ne k k' v m :
  k <> k' -> map_get k' (map_set k v m) = map_get k' m.
Proof.
  intros Hne. induction m as [|[k0 v0] m IH]; simpl.
  - destruct (String.eqb_spec k k'); congruence.
  - destruct (String.eqb_spec k0 k) as [->|Hk]; simpl.
    + destruct (String.eqb_spec k k'); congruence.
    + now rewrite IH.
Qed.

Lemma map_set_idem k v m : map_set k v (map_set k v m) = map_set k v m.
Proof.
  induction m as [|[k' v'] m IH]; simpl.
  - now rewrite String.eqb_refl.
  - destruct (String.eqb k' k) eqn:E; simpl; rewrite E; congruence.
Qed.

Lemma map_get_In k v m : map_get k m = Some v -> In (k, v) m.
Proof.
  induction m as [|[k' v'] m IH]; simpl; [discriminate|].
  destruct (String.eqb_spec k' k) as [->|_]; [intros [= ->]|]; auto.
Qed.

Lemma In_map_set k v k' v' m :
  In (k', v') (map_set k v m) -> (k' = k /\ v' = v) \/ In (k', v') m.
Proof.
  induction m as [|[k0 v0] m IH]; simpl.
  - intros [[= <- <-]|[]]; auto.
  - destruct (String.eqb_spec k0 k) as [->|_]; simpl.
    + intros [[= <- <-]|H]; auto.
    + intros [H|H]; auto. destruct (IH H); auto.
Qed.

(** In a well-formed Map the old binding of [k] is gone after [set]. *)
Lemma In_map_set_wf k v k' v' m :
  registry_wf m -> In (k', v') (map_set k v m) ->
  (k' = k /\ v' = v) \/ (k' <> k /\ In (k', v') m).
Proof.
  unfold registry_wf.
  induction m as [|[k0 v0] m IH]; simpl; intros Hwf.
  - intros [[= <- <-]|[]]; auto.
  - apply NoDup_cons_iff in Hwf as [Hk0 Hwf].
    destruct (String.eqb_spec k0 k) as [->|Hne]; simpl.
    + intros [[= <- <-]|H]; auto. right. split; auto.
      intros ->. apply Hk0. now apply (in_map fst) in H.
    + intros [[= <- <-]|H]; auto.
      destruct (IH Hwf H) as [?|[? ?]]; auto.
Qed.

Lemma map_get_delete_eq k m : map_get k (map_delete k m) = None.
Proof.
  unfold map_delete. induction m as [|[k' v'] m IH]; simpl; auto.
  destruct (String.eqb k' k) eqn:E; simpl; auto. now rewrite E.
Qed.

Lemma map_get_delete_ne k k' m :
  k <> k' -> map_get k' (map_delete k m) = map_get k' m.
Proof.
  intros Hne. unfold map_delete.
  induction m as [|[k0 v0] m IH]; simpl; auto.
  destruct (String.eqb_spec k0 k) as [->|Hk]; simpl.
  - destruct (String.eqb_spec k k'); congruence.
  - now rewrite IH.
Qed.

Lemma map_set_keys k v m :
  map fst (map_set k v m)
  = if existsb (String.eqb k) (map fst m) then map fst m
    else map fst m ++ [k].
Proof.
  induction m as [|[k0 v0] m IH]; simpl; auto.
  rewrite (String.eqb_sym k k0).
  destruct (String.eqb k0 k); simpl; auto.
  rewrite IH. now destruct (existsb _ _).
Qed.

Lemma map_set_wf k v m : registry_wf m -> registry_wf (map_set k v m).
Proof.
  unfold registry_wf. rewrite map_set_keys. intros Hwf.
  destruct (existsb _ _) eqn:E; auto.
  apply List.NoDup_app; auto.
  - repeat constructor. intros [].
  - intros x Hx [<-|[]].
    assert (existsb (String.eqb k) (map fst m) = true); [|congruence].
    apply existsb_exists. exists k. now rewrite String.eqb_refl.
Qed.

Lemma map_delete_wf k m : registry_wf m -> registry_wf (map_delete k m).
Proof.
  unfold registry_wf, map_delete. induction m as [|[k0 v0] m IH]; simpl; auto.
  intros Hwf. apply NoDup_cons_iff in Hwf as [Hk0 Hwf].
  destruct (String.eqb k0 k); simpl; auto.
  apply NoDup_cons_iff. split; auto.
  intros H. apply Hk0. apply in_map_iff in H as [[k1 v1] [<- H]].
  apply filter_In in H as [H _]. now apply (in_map fst) in H.
Qed.

Lemma bound_as_nil ws m :
  bound_as ws m = [] <-> forall k v, In (k, v) m -> v <> ws.
Proof.
  unfold bound_as. induction m as [|[k0 v0] m IH]; simpl.
  - split; auto.
  - destruct (Nat.eqb_spec v0 ws) as [->|Hne]; simpl.
    + split; [discriminate|]. intros H. exfalso. apply (H k0 ws); auto.
    + rewrite IH. split.
      * intros H k v [[= <- <-]|Hin]; eauto.
      * intros H k v Hin. eauto.
Qed.

Lemma bound_as_In ws k m : In k (bound_as ws m) <-> In (k, ws) m.
Proof.
  unfold bound_as. rewrite in_map_iff. split.
  - intros [[k' v'] [<- H]]. apply filter_In in H as [H E]. simpl in *.
    apply Nat.eqb_eq in E. now subst.
  - intros H. exists (k, ws). split; auto. apply filter_In. split; auto.
    simpl. apply Nat.eqb_refl.
Qed.
End registry_facts.

(** ** What one handler invocation does, branch by branch *)

Lemma type_is_eq t m : type_is t m = true -> msg_type m = Some (JStr t).
Proof.
  unfold type_is. destruct (msg_type m) as [[]|]; try discriminate.
  now intros ->%String.eqb_eq.
Qed.

Lemma type_is_other t t' m : type_is t m = true -> t <> t' -> type_is t' m = false.
Proof.
  intros H Hne. unfold type_is. rewrite (type_is_eq _ _ H).
  now apply String.eqb_neq.
Qed.

Ltac handler_unfold :=
  unfold step, run, on_message, on_close, try_catch, bind, JSON_parse,
    parse_messageData, connectedUsers_get, connectedUsers_set,
    connectedUsers_delete, connectedUsers_entries,
    storage_updateUserOnlineStatus, storage_createMessage, createMessage,
    broadcastToAll, ws_send, console_error, emit, throw, ret.

(** Rewrites the tests of the [if .. else if ..] chain once the type of
    the message is known. *)
Ltac dispatch H :=
  rewrite ?H;
  rewrite ?(type_is_other _ "auth" _ H) by discriminate;
  rewrite ?(type_is_other _ "chat_message" _ H) by discriminate;
  rewrite ?(type_is_other _ "update_last_seen" _ H) by discriminate;
  rewrite ?(type_is_other _ "typing" _ H) by discriminate.

Section handler_equations.
Variables (w : World) (ws : conn) (s : Server).

Lemma step_unparseable : step w (Message ws Unparseable) s = (s, [ConsoleError]).
Proof. reflexivity. Qed.

Lemma step_auth m userId :
  type_is "auth" m = true -> truthy (msg_userId m) = Some userId ->
  step w (Message ws (Parsed m)) s =
    let bound := map_set userId ws (connectedUsers s) in
    if store_up w
    then ({| connectedUsers := bound;
             db := updateUserOnlineStatus w userId true (db s) |},
          [Store (UpdateUserOnlineStatus userId true) true;
           Broadcast (user_online userId) (open_sockets w bound)])
    else ({| connectedUsers := bound; db := db s |},
          [Store (UpdateUserOnlineStatus userId true) false; ConsoleError]).
Proof.
  intros Ht Hu. handler_unfold. dispatch Ht. rewrite Hu. simpl.
  now destruct (store_up w).
Qed.

Lemma step_auth_falsy m :
  type_is "auth" m = true -> truthy (msg_userId m) = None ->
  step w (Message ws (Parsed m)) s = (s, []).
Proof. intros Ht Hu. handler_unfold. dispatch Ht. now rewrite Hu. Qed.

Lemma step_chat_invalid m issues :
  type_is "chat_message" m = true ->
  messageSchema_parse (msg_data m) = ZodError issues ->
  step w (Message ws (Parsed m)) s = (s, [ConsoleError]).
Proof. intros Ht Hp. handler_unfold. dispatch Ht. now rewrite Hp. Qed.

Lemma step_chat_store_down m messageData :
  type_is "chat_message" m = true ->
  messageSchema_parse (msg_data m) = Valid messageData ->
  store_up w = false ->
  step w (Message ws (Parsed m)) s
  = (s, [Store (CreateMessage messageData) false; ConsoleError]).
Proof. intros Ht Hp Hs. handler_unfold. dispatch Ht. now rewrite Hp, Hs. Qed.

Lemma step_chat_stored m messageData :
  type_is "chat_message" m = true ->
  messageSchema_parse (msg_data m) = Valid messageData ->
  store_up w = true ->
  step w (Message ws (Parsed m)) s
  = ({| connectedUsers := connectedUsers s;
        db := {| users := users (db s);
                 messages := messages (db s) ++ [new_row w messageData] |} |},
     Store (CreateMessage messageData) true
       :: to_recipient w s messageData ++ to_sender w ws messageData).
Proof.
  intros Ht Hp Hs. unfold to_recipient, to_sender.
  handler_unfold. dispatch Ht. rewrite Hp, Hs. simpl.
  destruct (map_get _ _) as [r|]; [destruct (is_open w r)|];
    destruct (is_open w ws); reflexivity.
Qed.

Lemma step_last_seen m userId :
  type_is "update_last_seen" m = true ->
  truthy (msg_userId m) = Some userId ->
  step w (Message ws (Parsed m)) s =
    if store_up w
    then ({| connectedUsers := connectedUsers s;
             db := updateUserOnlineStatus w userId true (db s) |},
          [Store (UpdateUserOnlineStatus userId true) true;
           Broadcast (user_status_update userId (now w) true)
             (open_sockets w (connectedUsers s))])
    else (s, [Store (UpdateUserOnlineStatus userId true) false; ConsoleError]).
Proof.
  intros Ht Hu. handler_unfold. dispatch Ht. rewrite Hu. simpl.
  now destruct (store_up w).
Qed.

Lemma step_last_seen_falsy m :
  type_is "update_last_seen" m = true -> truthy (msg_userId m) = None ->
  step w (Message ws (Parsed m)) s = (s, []).
Proof. intros Ht Hu. handler_unfold. dispatch Ht. now rewrite Hu. Qed.

Lemma step_typing m :
  type_is "typing" m = true ->
  step w (Message ws (Parsed m)) s
  = (s, match lookup_receiver s (msg_receiverId m) with
        | Some recipientWs =>
            if is_open w recipientWs
            then [Send recipientWs
                    (typing (msg_senderId m) (msg_isTyping m))]
            else []
        | None => []
        end).
Proof.
  intros Ht. unfold lookup_receiver. handler_unfold. dispatch Ht.
  destruct (match msg_receiverId m with Some _ => _ | None => _ end) as [r|];
    [destruct (is_open w r)|]; reflexivity.
Qed.

Lemma step_unknown m :
  type_is "auth" m = false -> type_is "chat_message" m = false ->
  type_is "update_last_seen" m = false -> type_is "typing" m = false ->
  step w (Message ws (Parsed m)) s = (s, []).
Proof. intros H1 H2 H3 H4. handler_unfold. now rewrite H1, H2, H3, H4. Qed.

Lemma close_loop_eq entries s0 :
  close_loop w ws entries s0
  = match bound_as ws entries with
    | [] => (Returned tt, s0, [])
    | userId :: _ =>
        (connectedUsers_delete userId ;;
         storage_updateUserOnlineStatus w userId false ;;
         broadcastToAll w (user_offline userId)) s0
    end.
Proof.
  unfold bound_as. induction entries as [|[k v] entries IH]; simpl; auto.
  destruct (Nat.eqb v ws); simpl; auto.
Qed.

Lemma step_close :
  step w (Close ws) s =
    match bound_as ws (connectedUsers s) with
    | [] => (s, [])
    | userId :: _ =>
        let rest := map_delete userId (connectedUsers s) in
        if store_up w
        then ({| connectedUsers := rest;
                 db := updateUserOnlineStatus w userId false (db s) |},
              [Store (UpdateUserOnlineStatus userId false) true;
               Broadcast (user_offline userId) (open_sockets w rest)])
        else ({| connectedUsers := rest; db := db s |},
              [Store (UpdateUserOnlineStatus userId false) false;
               UnhandledRejection])
    end.
Proof.
  unfold step, run, on_close, bind at 1, connectedUsers_entries.
  rewrite close_loop_eq.
  destruct (bound_as ws (connectedUsers s)) as [|userId ?]; auto.
  handler_unfold. simpl. now destruct (store_up w).
Qed.
End handler_equations.

(** ** Message routing *)

(** C3, amended. A [chat_message] whose payload passes [messageSchema],
    handled while the store accepts the insert, persists exactly one row: the
    payload with [isRead = false] and with [id] and [createdAt] assigned by
    the store, and nothing else in the database changes. That very row is
    sent back as [message_sent] on the socket the message came in on when
    that socket is open (and is not sent when it is not), whatever the
    registry says about the receiver. *)
Theorem C3_route_persists_once_and_confirms w ws s m messageData :
  type_is "chat_message" m = true ->
  messageSchema_parse (msg_data m) = Valid messageData ->
  store_up w = true ->
  exists savedMessage s' t,
    step w (Message ws (Parsed m)) s = (s', t)
    /\ messages (db s') = messages (db s) ++ [savedMessage]
    /\ users (db s') = users (db s)
    /\ store_calls t = [(CreateMessage messageData, true)]
    /\ Message.isRead savedMessage = Some false
    /\ Message.createdAt savedMessage = Some (now w)
    /\ Message.id savedMessage = uuid w
    /\ Message.senderId savedMessage = InsertMessage.senderId messageData
    /\ Message.receiverId savedMessage = InsertMessage.receiverId messageData
    /\ Message.content savedMessage = InsertMessage.content messageData
    /\ Message.messageType savedMessage
       = Some (InsertMessage.messageType messageData)
    /\ Message.imageUrl savedMessage = InsertMessage.imageUrl messageData
    /\ deliveries_of is_message_sent t
       = (if is_open w ws then [(ws, message_sent savedMessage)] else [])
    /\ completed t.
Proof.
  intros Ht Hp Hs. exists (new_row w messageData).
  rewrite (step_chat_stored _ _ _ _ _ Ht Hp Hs).
  do 2 eexists. split; [reflexivity|]. simpl.
  repeat (split; [reflexivity|]).
  unfold deliveries_of, completed, to_recipient, to_sender. simpl.
  destruct (map_get _ _) as [r|]; [destruct (is_open w r)|];
    destruct (is_open w ws); simpl;
    repeat (split; [reflexivity|]); split; intros H; intuition discriminate.
Qed.

Lemma C3_witness :
  let w := world_up 5 "m1" in
  let m := chat_message (chat_payload "alice" "bob" "hi") in
  exists savedMessage,
    messages (db (fst (step w (Message 1%nat m) server0))) = [savedMessage]
    /\ Message.isRead savedMessage = Some false
    /\ deliveries_of is_message_sent (snd (step w (Message 1%nat m) server0))
       = [(1%nat, message_sent savedMessage)].
Proof.
  intros w m.
  destruct (C3_route_persists_once_and_confirms w 1%nat server0
              {| msg_type := Some (JStr "chat_message"); msg_userId := None;
                 msg_data := Some (chat_payload "alice" "bob" "hi");
                 msg_senderId := None; msg_receiverId := None;
                 msg_isTyping := None |}
              {| InsertMessage.senderId := "alice";
                 InsertMessage.receiverId := "bob";
                 InsertMessage.content := "hi";
                 InsertMessage.messageType := "text";
                 InsertMessage.imageUrl := None |}
              eq_refl eq_refl eq_refl)
    as (saved & s' & t & Hstep & Hm & _ & _ & Hr & _ & _ & _ & _ & _ & _ & _ & Hd & _).
  exists saved. subst m. unfold chat_message. rewrite Hstep. simpl.
  rewrite Hm, Hd. auto.
Defined.

(** C3, as stated, fails: the payload passes [messageSchema] and the
    sender's socket is open, but the store refuses the insert (it is down,
    or an id has no users row). The rejection lands in the handler's
    [catch]: no row is persisted and no [message_sent] is sent. *)
Lemma C3_counterexample :
  let w := world_down 5 in
  let payload := chat_payload "alice" "bob" "hi" in
  let r := step w (Message 1%nat (chat_message payload)) server0 in
  messageSchema_parse (Some payload)
  = Valid {| InsertMessage.senderId := "alice";
             InsertMessage.receiverId := "bob";
             InsertMessage.content := "hi";
             InsertMessage.messageType := "text";
             InsertMessage.imageUrl := None |}
  /\ is_open w 1%nat = true
  /\ messages (db (fst r)) = []
  /\ deliveries_of is_message_sent (snd r) = []
  /\ snd r
     = [Store (CreateMessage
                 {| InsertMessage.senderId := "alice";
                    InsertMessage.receiverId := "bob";
                    InsertMessage.content := "hi";
                    InsertMessage.messageType := "text";
                    InsertMessage.imageUrl := None |}) false;
        ConsoleError].
Proof. intros w payload r. vm_compute. repeat split. Qed.

(** C4, amended. For a [chat_message] whose payload passes [messageSchema],
    the store accepting the insert, a [new_message] event is delivered to a
    socket [r] if and only if [r] is the socket bound to the receiver and its
    transport is open; the event carries the persisted row, and is sent
    once. When the receiver is not bound, or bound to a socket that is not
    open, no [new_message] goes to anyone, and the handler still completes:
    the row is persisted, nothing is logged and nothing is thrown. *)
Theorem C4_new_message_iff_receiver_reachable w ws s m messageData :
  type_is "chat_message" m = true ->
  messageSchema_parse (msg_data m) = Valid messageData ->
  store_up w = true ->
  let receiver := map_get (InsertMessage.receiverId messageData)
                    (connectedUsers s) in
  exists savedMessage s' t,
    step w (Message ws (Parsed m)) s = (s', t)
    /\ messages (db s') = messages (db s) ++ [savedMessage]
    /\ (forall r ev,
          In (r, ev) (deliveries t) /\ is_new_message ev = true
          <-> receiver = Some r /\ is_open w r = true
              /\ ev = new_message savedMessage)
    /\ deliveries_of is_new_message t
       = match receiver with
         | Some r => if is_open w r
                     then [(r, new_message savedMessage)] else []
         | None => []
         end
    /\ completed t.
Proof.
  intros Ht Hp Hs receiver. exists (new_row w messageData).
  rewrite (step_chat_stored _ _ _ _ _ Ht Hp Hs).
  do 2 eexists. split; [reflexivity|]. simpl. split; [reflexivity|].
  unfold deliveries_of, completed, to_recipient, to_sender.
  fold receiver. clearbody receiver.
  destruct receiver as [r0|]; [destruct (is_open w r0) eqn:Er0|];
    destruct (is_open w ws); simpl;
    (split; [|split; [reflexivity| split; intros H; intuition discriminate]]);
    intros r ev; (split; [intros [Hin Hev]|intros (Hr & Ho & ->)]); simpl in *;
    try discriminate; try congruence;
    repeat match goal with
           | H : _ \/ _ |- _ => destruct H as [H|H]
           | H : False |- _ => destruct H
           | H : (_, _) = (_, _) |- _ => injection H as <- <-
           | H : Some _ = Some _ |- _ => injection H as <-
           end;
    try discriminate; auto.
Qed.

Lemma C4_witness :
  let w := world_up 5 "m1" in
  let s := {| connectedUsers := [("bob", 2%nat)]; db := db server0 |} in
  let m := chat_message (chat_payload "alice" "bob" "hi") in
  exists savedMessage,
    messages (db (fst (step w (Message 1%nat m) s))) = [savedMessage]
    /\ deliveries_of is_new_message (snd (step w (Message 1%nat m) s))
       = [(2%nat, new_message savedMessage)].
Proof.
  intros w s m.
  destruct (C4_new_message_iff_receiver_reachable w 1%nat s
              {| msg_type := Some (JStr "chat_message"); msg_userId := None;
                 msg_data := Some (chat_payload "alice" "bob" "hi");
                 msg_senderId := None; msg_receiverId := None;
                 msg_isTyping := None |}
              {| InsertMessage.senderId := "alice";
                 InsertMessage.receiverId := "bob";
                 InsertMessage.content := "hi";
                 InsertMessage.messageType := "text";
                 InsertMessage.imageUrl := None |}
              eq_refl eq_refl eq_refl)
    as (saved & s' & t & Hstep & Hm & _ & Hd & _).
  exists saved. subst m. unfold chat_message. rewrite Hstep. simpl.
  rewrite Hm, Hd. auto.
Defined.

(** C4, as stated, fails: the receiver is bound to an open socket and the
    payload passes [messageSchema], but the store refuses the insert. No
    [new_message] is sent to the receiver, and the routing does fail: the
    handler ends in its [catch]. *)
Lemma C4_counterexample :
  let w := world_down 5 in
  let s := {| connectedUsers := [("bob", 2%nat)]; db := db server0 |} in
  let payload := chat_payload "alice" "bob" "hi" in
  let r := step w (Message 1%nat (chat_message payload)) s in
  (exists messageData, messageSchema_parse (Some payload) = Valid messageData)
  /\ map_get "bob" (connectedUsers s) = Some 2%nat
  /\ is_open w 2%nat = true
  /\ deliveries_of is_new_message (snd r) = []
  /\ In ConsoleError (snd r)
  /\ ~ completed (snd r).
Proof.
  intros w s payload r. split; [eexists; reflexivity|].
  repeat (split; [reflexivity|]).
  assert (Hlog : In ConsoleError (snd r)) by (vm_compute; auto).
  split; [exact Hlog|]. intros [Hno _]. exact (Hno Hlog).
Qed.

(** ** The typing relay *)

(** C8. A [typing] event changes nothing on the server and makes no store
    call. When the receiver is bound to a socket whose transport is open,
    exactly one event goes out, to that socket: [typing] with the
    [senderId] and [isTyping] of the inbound event. Otherwise nothing is
    sent. In both cases the handler completes without logging an error. *)
Theorem C8_typing_relay w ws s m :
  type_is "typing" m = true ->
  exists t,
    step w (Message ws (Parsed m)) s = (s, t)
    /\ store_calls t = []
    /\ completed t
    /\ (forall r,
          lookup_receiver s (msg_receiverId m) = Some r ->
          is_open w r = true ->
          t = [Send r (typing (msg_senderId m) (msg_isTyping m))])
    /\ ((forall r, lookup_receiver s (msg_receiverId m) = Some r ->
                   is_open w r = false) ->
        t = []).
Proof.
  intros Ht. rewrite (step_typing _ _ _ _ Ht). eexists. split; [reflexivity|].
  unfold completed.
  destruct (lookup_receiver s (msg_receiverId m)) as [r0|];
    [destruct (is_open w r0) eqn:Er0|]; simpl;
    (split; [reflexivity|]); (split; [intuition discriminate|]); split;
    try (intros r [= <-] Ho; congruence); try discriminate; auto.
  intros H. specialize (H r0 eq_refl). congruence.
Qed.

Lemma C8_witness :
  let s := {| connectedUsers := [("bob", 2%nat)]; db := db server0 |} in
  let m := {| msg_type := Some (JStr "typing"); msg_userId := None;
              msg_data := None; msg_senderId := Some (JStr "alice");
              msg_receiverId := Some "bob";
              msg_isTyping := Some (JBool true) |} in
  step (world_up 7 "") (Message 1%nat (Parsed m)) s
  = (s, [Send 2%nat (typing (Some (JStr "alice")) (Some (JBool true)))]).
Proof.
  intros s m.
  destruct (C8_typing_relay (world_up 7 "") 1%nat s m eq_refl)
    as (t & Hstep & _ & _ & Hsend & _).
  rewrite Hstep. f_equal. apply (Hsend 2%nat); reflexivity.
Defined.

(** ** Validation *)

Lemma prop_Some_object k data v :
  prop k data = Some v -> exists ms, data = JObj ms.
Proof. destruct data; try discriminate. eauto. Qed.

Lemma z_content_Some v c :
  z_content v = Some c <->
  v = Some (JStr c) /\ (1 <= String.length c <= 1000)%nat.
Proof.
  unfold z_content, z_string. split.
  - destruct v as [[]|]; try discriminate.
    destruct (Nat.leb_spec 1 (String.length s));
      destruct (Nat.leb_spec (String.length s) 1000); simpl;
      try discriminate.
    intros [= ->]. auto.
  - intros [-> [H1 H2]].
    apply Nat.leb_le in H1, H2. now rewrite H1, H2.
Qed.

Lemma messageSchema_parse_Valid data messageData :
  messageSchema_parse (Some data) = Valid messageData ->
  z_string (prop "senderId" data) = Some (InsertMessage.senderId messageData)
  /\ z_string (prop "receiverId" data)
     = Some (InsertMessage.receiverId messageData)
  /\ z_content (prop "content" data)
     = Some (InsertMessage.content messageData)
  /\ z_messageType (prop "messageType" data)
     = Some (InsertMessage.messageType messageData)
  /\ z_optional_string (prop "imageUrl" data)
     = Some (InsertMessage.imageUrl messageData).
Proof.
  unfold messageSchema_parse. destruct data; try discriminate.
  destruct (z_string (prop "senderId" _)), (z_string (prop "receiverId" _)),
    (z_content _), (z_messageType _), (z_optional_string _);
    try discriminate.
  intros [= <-]. simpl. auto.
Qed.

(** C5. [messageSchema] accepts a payload only if its [content] is a string
    of 1 to 1000 characters, and accepts every otherwise well-formed
    payload whose [content] is; a payload whose [content] is empty or longer
    than 1000 characters (1001, say) is rejected with [content] among the
    issues. When a [chat_message] fails validation the handler only logs:
    the server state is unchanged (no row is persisted), no store call is
    made and nothing is sent to anyone. *)
Theorem C5_validation_bounds :
  (forall data messageData,
      messageSchema_parse (Some data) = Valid messageData ->
      prop "content" data = Some (JStr (InsertMessage.content messageData))
      /\ (1 <= String.length (InsertMessage.content messageData) <= 1000)%nat)
  /\ (forall data senderId receiverId content messageType imageUrl,
        prop "senderId" data = Some (JStr senderId) ->
        prop "receiverId" data = Some (JStr receiverId) ->
        prop "content" data = Some (JStr content) ->
        z_messageType (prop "messageType" data) = Some messageType ->
        z_optional_string (prop "imageUrl" data) = Some imageUrl ->
        (1 <= String.length content <= 1000)%nat ->
        messageSchema_parse (Some data)
        = Valid {| InsertMessage.senderId := senderId;
                   InsertMessage.receiverId := receiverId;
                   InsertMessage.content := content;
                   InsertMessage.messageType := messageType;
                   InsertMessage.imageUrl := imageUrl |})
  /\ (forall data content,
        prop "content" data = Some (JStr content) ->
        (String.length content = 0 \/ 1000 < String.length content)%nat ->
        exists issues,
          messageSchema_parse (Some data) = ZodError issues
          /\ In "content" issues)
  /\ (forall w ws s m issues,
        type_is "chat_message" m = true ->
        messageSchema_parse (msg_data m) = ZodError issues ->
        exists t,
          step w (Message ws (Parsed m)) s = (s, t)
          /\ t = [ConsoleError]
          /\ store_calls t = [] /\ deliveries t = []).
Proof.
  repeat split.
  - apply messageSchema_parse_Valid in H as (_ & _ & H & _).
    now apply z_content_Some in H as [-> _].
  - apply messageSchema_parse_Valid in H as (_ & _ & H & _).
    now apply z_content_Some in H as [_ [? _]].
  - apply messageSchema_parse_Valid in H as (_ & _ & H & _).
    now apply z_content_Some in H as [_ [_ ?]].
  - intros data senderId receiverId content messageType imageUrl
      Hs Hr Hc Ht Hi Hlen.
    destruct (prop_Some_object _ _ _ Hc) as [ms ->].
    unfold messageSchema_parse. rewrite Hs, Hr, Hc, Ht, Hi. simpl.
    assert (Hz : z_content (Some (JStr content)) = Some content)
      by now apply z_content_Some.
    now rewrite Hz.
  - intros data content Hc Hlen.
    destruct (prop_Some_object _ _ _ Hc) as [ms ->].
    assert (Hz : z_content (prop "content" (JObj ms)) = None).
    { destruct (z_content _) as [c|] eqn:E; auto.
      apply z_content_Some in E as [E [? ?]]. rewrite Hc in E.
      injection E as ->. lia. }
    unfold messageSchema_parse. rewrite Hz.
    destruct (z_string (prop "senderId" _)), (z_string (prop "receiverId" _)),
      (z_messageType _), (z_optional_string _);
      eexists; (split; [reflexivity|]); simpl; auto.
  - intros w ws s m issues Ht Hp.
    rewrite (step_chat_invalid _ _ _ _ _ Ht Hp). eauto.
Qed.

Lemma C5_witness :
  (exists messageData,
      messageSchema_parse (Some (chat_payload "alice" "bob" (text_of_length 1000)))
      = Valid messageData)
  /\ (exists issues,
        messageSchema_parse (Some (chat_payload "alice" "bob" ""))
        = ZodError issues)
  /\ (exists issues,
        messageSchema_parse (Some (chat_payload "alice" "bob" (text_of_length 1001)))
        = ZodError issues)
  /\ step (world_up 5 "m1")
          (Message 1%nat (chat_message (chat_payload "alice" "bob" ""))) server0
     = (server0, [ConsoleError]).
Proof.
  destruct C5_validation_bounds as (_ & Haccept & Hreject & Hdrop).
  split; [|split; [|split]].
  - eexists.
    apply (Haccept _ "alice" "bob" (text_of_length 1000) "text" None);
      try reflexivity.
    split; apply Nat.leb_le; vm_compute; reflexivity.
  - destruct (Hreject (chat_payload "alice" "bob" "") "" eq_refl)
      as (issues & H & _); [left; reflexivity|eauto].
  - destruct (Hreject (chat_payload "alice" "bob" (text_of_length 1001))
                (text_of_length 1001) eq_refl) as (issues & H & _); [|eauto].
    right. apply Nat.ltb_lt. vm_compute. reflexivity.
  - destruct (Hdrop (world_up 5 "m1") 1%nat server0
                {| msg_type := Some (JStr "chat_message"); msg_userId := None;
                   msg_data := Some (chat_payload "alice" "bob" "");
                   msg_senderId := None; msg_receiverId := None;
                   msg_isTyping := None |} ["content"] eq_refl eq_refl)
      as (t & Hstep & -> & _).
    exact Hstep.
Defined.

(** ** Presence *)

Lemma truthy_Some userId : userId <> "" -> truthy (Some userId) = Some userId.
Proof.
  intros H. unfold truthy. now destruct (String.eqb_spec userId "").
Qed.

(** C9. When the presence write of an auth handshake for [userId] fails,
    the handler logs the error and stops: the trace is the failed store call
    followed by [console.error], so no [user_online] is broadcast and
    nothing is sent to any socket. The binding made before the write stays:
    [userId] is bound to the socket of the handshake. Nothing else changes:
    the bindings of all other identities and the database are as before. *)
Theorem C9_failed_presence_write_is_contained w ws s m userId :
  type_is "auth" m = true ->
  msg_userId m = Some userId ->
  userId <> "" ->
  store_up w = false ->
  exists s' t,
    step w (Message ws (Parsed m)) s = (s', t)
    /\ t = [Store (UpdateUserOnlineStatus userId true) false; ConsoleError]
    /\ broadcasts t = [] /\ deliveries t = []
    /\ connectedUsers s' = map_set userId ws (connectedUsers s)
    /\ map_get userId (connectedUsers s') = Some ws
    /\ (forall other, other <> userId ->
          map_get other (connectedUsers s') = map_get other (connectedUsers s))
    /\ db s' = db s.
Proof.
  intros Ht Hu Hne Hs.
  assert (Htr : truthy (msg_userId m) = Some userId)
    by (rewrite Hu; now apply truthy_Some).
  rewrite (step_auth _ _ _ _ _ Ht Htr). simpl. rewrite Hs.
  do 2 eexists. split; [reflexivity|]. simpl.
  repeat (split; [reflexivity|]). split; [apply map_get_set_eq|].
  split; [|reflexivity].
  intros other Hother. apply map_get_set_ne. congruence.
Qed.

Lemma C9_witness :
  let s := {| connectedUsers := [("bob", 2%nat)]; db := db server0 |} in
  step (world_down 9) (Message 1%nat (auth "alice")) s
  = ({| connectedUsers := [("bob", 2%nat); ("alice", 1%nat)]; db := db server0 |},
     [Store (UpdateUserOnlineStatus "alice" true) false; ConsoleError]).
Proof.
  intros s.
  destruct (C9_failed_presence_write_is_contained (world_down 9) 1%nat s
              {| msg_type := Some (JStr "auth"); msg_userId := Some "alice";
                 msg_data := None; msg_senderId := None;
                 msg_receiverId := None; msg_isTyping := None |}
              "alice" eq_refl eq_refl ltac:(discriminate) eq_refl)
    as (s' & t & Hstep & -> & _ & _ & Hreg & _ & _ & Hdb).
  unfold auth. rewrite Hstep. f_equal.
  destruct s' as [reg d]. simpl in *. now rewrite Hreg, Hdb.
Defined.

(** C10, amended. Let [userId] be bound to [c1] and let an auth handshake
    on another socket [c2] rebind [userId] (whether or not its presence
    write succeeds). Then [userId] is bound to [c2], and the close of [c1]
    never touches [userId]: the binding to [c2] is kept, no store write is
    made for [userId] and no [user_offline] is broadcast for it. When [c1]
    was bound under no other identity, the close of [c1] does nothing at
    all: the server state is as it was and the trace is empty. *)
Theorem C10_close_of_superseded_socket w1 w2 c1 c2 s m userId :
  registry_wf (connectedUsers s) ->
  map_get userId (connectedUsers s) = Some c1 ->
  c2 <> c1 ->
  type_is "auth" m = true ->
  msg_userId m = Some userId ->
  userId <> "" ->
  exists s1 t1 s2 t2,
    step w1 (Message c2 (Parsed m)) s = (s1, t1)
    /\ map_get userId (connectedUsers s1) = Some c2
    /\ step w2 (Close c1) s1 = (s2, t2)
    /\ map_get userId (connectedUsers s2) = Some c2
    /\ (forall isOnline resolved,
          ~ In (UpdateUserOnlineStatus userId isOnline, resolved)
               (store_calls t2))
    /\ ~ In (user_offline userId) (broadcasts t2)
    /\ ((forall k, In (k, c1) (connectedUsers s) -> k = userId) ->
        s2 = s1 /\ t2 = []).
Proof.
  intros Hwf Hget Hc Ht Hu Hne.
  assert (Htr : truthy (msg_userId m) = Some userId)
    by (rewrite Hu; now apply truthy_Some).
  set (reg1 := map_set userId c2 (connectedUsers s)).
  assert (Hothers : forall k, In k (bound_as c1 reg1) ->
                              k <> userId /\ In (k, c1) (connectedUsers s)).
  { intros k Hk. apply bound_as_In in Hk.
    apply In_map_set_wf in Hk as [[_ ?]|[Hk Hin]]; [congruence|auto|assumption]. }
  assert (Hclose : forall s1, connectedUsers s1 = reg1 ->
            exists s2 t2,
              step w2 (Close c1) s1 = (s2, t2)
              /\ map_get userId (connectedUsers s2) = Some c2
              /\ (forall isOnline resolved,
                    ~ In (UpdateUserOnlineStatus userId isOnline, resolved)
                         (store_calls t2))
              /\ ~ In (user_offline userId) (broadcasts t2)
              /\ ((forall k, In (k, c1) (connectedUsers s) -> k = userId) ->
                  s2 = s1 /\ t2 = [])).
  { intros s1 Hreg. rewrite step_close, Hreg.
    destruct (bound_as c1 reg1) as [|k rest] eqn:Hb.
    - do 2 eexists. split; [reflexivity|]. rewrite Hreg.
      split; [apply map_get_set_eq|]. simpl. auto.
    - destruct (Hothers k (or_introl eq_refl)) as [Hk Hin]. cbv zeta.
      destruct (store_up w2); do 2 eexists; (split; [reflexivity|]);
        cbn [connectedUsers];
        (split; [rewrite map_get_delete_ne by exact Hk;
                 apply map_get_set_eq|]);
        simpl; (split; [|split]).
      + intros isOnline resolved [[= -> _ _]|[]]. now apply Hk.
      + intros [[= ->]|[]]. now apply Hk.
      + intros Honly. now apply Honly in Hin.
      + intros isOnline resolved [[= -> _ _]|[]]. now apply Hk.
      + intros [].
      + intros Honly. now apply Honly in Hin. }
  rewrite (step_auth _ _ _ _ _ Ht Htr). cbv zeta. fold reg1.
  destruct (store_up w1);
    match goal with |- context [(?s1, ?t1)] =>
      destruct (Hclose s1 eq_refl) as (s2 & t2 & H2 & Hrest);
      exists s1, t1, s2, t2
    end;
    (split; [reflexivity|]); (split; [apply map_get_set_eq|]);
    (split; [exact H2|exact Hrest]).
Qed.

Lemma C10_witness :
  let s := {| connectedUsers := [("alice", 1%nat); ("bob", 3%nat)];
              db := db server0 |} in
  let s1 := fst (step (world_up 1 "") (Message 2%nat (auth "alice")) s) in
  connectedUsers s1 = [("alice", 2%nat); ("bob", 3%nat)]
  /\ step (world_up 2 "") (Close 1%nat) s1 = (s1, []).
Proof.
  intros s s1. split; [reflexivity|].
  assert (Hwf : registry_wf (connectedUsers s)).
  { repeat constructor; simpl; intuition discriminate. }
  assert (Honly : forall k, In (k, 1%nat) (connectedUsers s) -> k = "alice").
  { simpl. intros k [[= <-]|[[=]|[]]]. reflexivity. }
  destruct (C10_close_of_superseded_socket (world_up 1 "") (world_up 2 "")
              1%nat 2%nat s
              {| msg_type := Some (JStr "auth"); msg_userId := Some "alice";
                 msg_data := None; msg_senderId := None;
                 msg_receiverId := None; msg_isTyping := None |}
              "alice" Hwf eq_refl ltac:(discriminate) eq_refl eq_refl
              ltac:(discriminate))
    as (s1' & t1 & s2 & t2 & Hstep & _ & Hclose & _ & _ & _ & Hnothing).
  destruct (Hnothing Honly) as [-> ->].
  subst s1. unfold auth. rewrite Hstep. exact Hclose.
Defined.

(** C10, as stated, fails: socket 1 has sent auth handshakes for alice and
    for carol; socket 2 then rebinds alice. The close of the superseded
    socket 1 is not free of side effects: it unbinds carol, writes carol
    offline and broadcasts [user_offline] for carol. *)
Lemma C10_counterexample :
  let s := fst (steps [(world_up 1 "", Message 1%nat (auth "alice"));
                       (world_up 2 "", Message 1%nat (auth "carol"))]
                  server0) in
  let s1 := fst (step (world_up 3 "") (Message 2%nat (auth "alice")) s) in
  map_get "alice" (connectedUsers s) = Some 1%nat
  /\ connectedUsers s1 = [("alice", 2%nat); ("carol", 1%nat)]
  /\ step (world_up 4 "") (Close 1%nat) s1
     = ({| connectedUsers := [("alice", 2%nat)]; db := db s1 |},
        [Store (UpdateUserOnlineStatus "carol" false) true;
         Broadcast (user_offline "carol") [2%nat]])
  /\ snd (step (world_up 4 "") (Close 1%nat) s1) <> [].
Proof.
  intros s s1. vm_compute. repeat split. discriminate.
Qed.

Lemma store_calls_sends l :
  (forall e, In e l -> exists ws ev, e = Send ws ev) -> store_calls l = [].
Proof.
  induction l as [|e l IH]; intros H; simpl; auto.
  destruct (H e (or_introl eq_refl)) as (ws & ev & ->). simpl.
  apply IH. intros e' He'. apply H. now right.
Qed.

(** A message that is not an auth handshake, on any socket. *)
Lemma step_non_auth w ws s data :
  frame_type_is "auth" data = false ->
  exists s' t,
    step w (Message ws data) s = (s', t)
    /\ connectedUsers s' = connectedUsers s
    /\ (frame_type_is "chat_message" data = false ->
        frame_type_is "update_last_seen" data = false ->
        frame_type_is "typing" data = false ->
        s' = s /\ store_calls t = [] /\ deliveries t = [])
    /\ (frame_type_is "typing" data = true ->
        s' = s /\ store_calls t = []).
Proof.
  intros Hauth.
  destruct data as [|m]; cbn [frame_type_is] in *.
  { rewrite step_unparseable. do 2 eexists. split; [reflexivity|].
    simpl. auto 6. }
  destruct (type_is "chat_message" m) eqn:Hchat.
  { rewrite (type_is_other _ "typing" _ Hchat) by discriminate.
    destruct (messageSchema_parse (msg_data m)) as [d|issues] eqn:Hp.
    - destruct (store_up w) eqn:Hup.
      + rewrite (step_chat_stored _ _ _ _ _ Hchat Hp Hup).
        do 2 eexists. split; [reflexivity|]. simpl.
        repeat split; auto; discriminate.
      + rewrite (step_chat_store_down _ _ _ _ _ Hchat Hp Hup).
        do 2 eexists. split; [reflexivity|].
        repeat split; auto; discriminate.
    - rewrite (step_chat_invalid _ _ _ _ _ Hchat Hp).
      do 2 eexists. split; [reflexivity|].
      repeat split; auto; discriminate. }
  destruct (type_is "update_last_seen" m) eqn:Hseen.
  { rewrite (type_is_other _ "typing" _ Hseen) by discriminate.
    destruct (truthy (msg_userId m)) as [userId|] eqn:Hu.
    - rewrite (step_last_seen _ _ _ _ _ Hseen Hu).
      destruct (store_up w); do 2 eexists; (split; [reflexivity|]);
        simpl; repeat split; auto; discriminate.
    - rewrite (step_last_seen_falsy _ _ _ _ Hseen Hu).
      do 2 eexists. split; [reflexivity|].
      repeat split; auto; discriminate. }
  destruct (type_is "typing" m) eqn:Htyping.
  { rewrite (step_typing _ _ _ _ Htyping).
    do 2 eexists. split; [reflexivity|].
    repeat split; auto; try discriminate.
    all: apply store_calls_sends; intros e He;
      destruct (lookup_receiver s (msg_receiverId m)) as [r|];
      [destruct (is_open w r)|]; simpl in He;
      try contradiction; destruct He as [<-|[]]; eauto. }
  rewrite (step_unknown _ _ _ _ Hauth Hchat Hseen Htyping).
  do 2 eexists. split; [reflexivity|]. repeat split; auto.
Qed.

(** Every handler keeps the keys of [connectedUsers] distinct. *)
Lemma step_registry w i s :
  let reg := connectedUsers (fst (step w i s)) in
  reg = connectedUsers s
  \/ (exists k v, reg = map_set k v (connectedUsers s))
  \/ (exists k, reg = map_delete k (connectedUsers s)).
Proof.
  destruct i as [ws [|m]|ws]; cbv zeta.
  - rewrite step_unparseable. now left.
  - destruct (type_is "auth" m) eqn:Hauth.
    { destruct (truthy (msg_userId m)) as [userId|] eqn:Hu.
      - rewrite (step_auth _ _ _ _ _ Hauth Hu). cbv zeta.
        right; left. exists userId, ws. now destruct (store_up w).
      - rewrite (step_auth_falsy _ _ _ _ Hauth Hu). now left. }
    destruct (step_non_auth w ws s (Parsed m) Hauth)
      as (s' & t & -> & Hreg & _). now left.
  - rewrite step_close.
    destruct (bound_as ws (connectedUsers s)) as [|userId ?]; [now left|].
    right; right. exists userId. cbv zeta. now destruct (store_up w).
Qed.

Lemma step_wf w i s :
  registry_wf (connectedUsers s) ->
  registry_wf (connectedUsers (fst (step w i s))).
Proof.
  intros Hwf.
  destruct (step_registry w i s) as [->|[(k & v & ->)|(k & ->)]];
    auto using map_set_wf, map_delete_wf.
Qed.

(** *** Runs *)

Lemma steps_app l1 l2 s :
  steps (l1 ++ l2) s =
    match steps l1 s with
    | (s1, t1) => match steps l2 s1 with (s2, t2) => (s2, t1 ++ t2) end
    end.
Proof.
  revert s. induction l1 as [|[w i] l1 IH]; intros s; simpl.
  - now destruct (steps l2 s).
  - destruct (step w i s) as [s1 t1]. rewrite IH.
    destruct (steps l1 s1) as [s2 t2], (steps l2 s2) as [s3 t3].
    now rewrite app_assoc.
Qed.

Lemma broadcasts_app t1 t2 : broadcasts (t1 ++ t2) = broadcasts t1 ++ broadcasts t2.
Proof. apply flat_map_app. Qed.

Lemma store_calls_app t1 t2 :
  store_calls (t1 ++ t2) = store_calls t1 ++ store_calls t2.
Proof. apply flat_map_app. Qed.

(** Handshakes for one identity on one socket: the first one binds, the
    others find the binding in place; each writes presence and broadcasts. *)
Lemma handshakes_run ws userId hs :
  userId <> "" ->
  Forall (auth_for userId) hs ->
  forall s, exists s' t,
    steps (arriving ws hs) s = (s', t)
    /\ connectedUsers s'
       = match hs with
         | [] => connectedUsers s
         | _ :: _ => map_set userId ws (connectedUsers s)
         end
    /\ messages (db s') = messages (db s)
    /\ broadcasts t = repeat (user_online userId) (length hs)
    /\ store_calls t
       = repeat (UpdateUserOnlineStatus userId true, true) (length hs).
Proof.
  intros Hne. induction 1 as [|[w m] hs (Hup & Ht & Hu) _ IH]; intros s.
  - exists s, []. simpl. auto.
  - simpl in Hup, Ht, Hu.
    assert (Htr : truthy (msg_userId m) = Some userId)
      by (rewrite Hu; now apply truthy_Some).
    cbn [arriving map steps fst snd].
    rewrite (step_auth _ _ _ _ _ Ht Htr). cbv zeta. rewrite Hup.
    match goal with |- context [steps _ ?s1] =>
      destruct (IH s1) as (s' & t & Hrun & Hreg & Hmsg & Hb & Hc) end.
    unfold arriving in Hrun. rewrite Hrun.
    do 2 eexists. split; [reflexivity|].
    rewrite Hreg, Hmsg. cbn [connectedUsers db].
    split; [destruct hs; [reflexivity|apply map_set_idem]|].
    split; [reflexivity|].
    cbn [broadcasts store_calls flat_map app length repeat].
    fold (broadcasts t). fold (store_calls t). now rewrite Hb, Hc.
Qed.

Lemma bound_as_after_set ws userId m :
  (forall k, In (k, ws) m -> k = userId) ->
  exists rest, bound_as ws (map_set userId ws m) = userId :: rest.
Proof.
  intros Honly.
  destruct (bound_as ws (map_set userId ws m)) as [|k rest] eqn:E.
  - exfalso. eapply bound_as_nil; [exact E| |reflexivity].
    apply map_get_In, map_get_set_eq.
  - exists rest. f_equal.
    assert (Hin : In k (bound_as ws (map_set userId ws m)))
      by (rewrite E; now left).
    apply bound_as_In, In_map_set in Hin as [[? _]|Hin]; auto.
Qed.

Lemma users_after_update w id isOnline d u :
  In u (users (updateUserOnlineStatus w id isOnline d)) ->
  User.id u = id ->
  User.isOnline u = Some isOnline /\ User.lastSeen u = Some (now w).
Proof.
  unfold updateUserOnlineStatus. simpl. intros Hin Hid.
  apply in_map_iff in Hin as (u0 & <- & _).
  destruct (String.eqb_spec (User.id u0) id) as [_|Hne]; simpl; auto.
  contradiction.
Qed.

(** C2, amended. On a socket bound under no other identity, [n >= 1] auth
    handshakes for a non-empty identity [userId] followed by the close of
    the socket, the presence writes succeeding, produce one [user_online]
    broadcast PER HANDSHAKE ([n] of them, not one) and then exactly one
    [user_offline] broadcast; the store receives [n] writes of
    [isOnline = true] and then one of [isOnline = false]. Afterwards
    [userId] is unbound and its row, if any, is offline. *)
Theorem C2_online_per_handshake_then_one_offline ws userId s hs w :
  userId <> "" ->
  hs <> [] ->
  Forall (auth_for userId) hs ->
  store_up w = true ->
  (forall k, In (k, ws) (connectedUsers s) -> k = userId) ->
  exists s' t,
    steps (arriving ws hs ++ [(w, Close ws)]) s = (s', t)
    /\ broadcasts t
       = repeat (user_online userId) (length hs) ++ [user_offline userId]
    /\ store_calls t
       = repeat (UpdateUserOnlineStatus userId true, true) (length hs)
         ++ [(UpdateUserOnlineStatus userId false, true)]
    /\ map_get userId (connectedUsers s') = None
    /\ (forall u, In u (users (db s')) -> User.id u = userId ->
                  User.isOnline u = Some false)
    /\ messages (db s') = messages (db s).
Proof.
  intros Hne Hhs Hall Hup Honly.
  destruct (handshakes_run ws userId hs Hne Hall s)
    as (s1 & t1 & Hrun & Hreg & Hmsg & Hb & Hc).
  rewrite steps_app, Hrun. cbn [steps]. rewrite step_close.
  destruct hs as [|h hs']; [congruence|]. rewrite Hreg.
  destruct (bound_as_after_set ws userId _ Honly) as [rest ->].
  cbv zeta. rewrite Hup. do 2 eexists. split; [reflexivity|].
  rewrite app_nil_r, broadcasts_app, store_calls_app, Hb, Hc.
  cbn [connectedUsers db].
  split; [reflexivity|]. split; [reflexivity|].
  split; [apply map_get_delete_eq|]. split; [|exact Hmsg].
  intros u Hin Hid. now apply users_after_update in Hin as [? _].
Qed.

Lemma C2_witness :
  let s := {| connectedUsers := [("bob", 2%nat)]; db := db server0 |} in
  broadcasts
    (snd (steps [(world_up 1 "", Message 1%nat (auth "alice"));
                 (world_up 2 "", Message 1%nat (auth "alice"));
                 (world_up 3 "", Message 1%nat (auth "alice"));
                 (world_up 4 "", Close 1%nat)] s))
  = [user_online "alice"; user_online "alice"; user_online "alice";
     user_offline "alice"].
Proof.
  intros s.
  pose (m := {| msg_type := Some (JStr "auth"); msg_userId := Some "alice";
                msg_data := None; msg_senderId := None;
                msg_receiverId := None; msg_isTyping := None |}).
  assert (Hall : Forall (auth_for "alice")
                   [(world_up 1 "", m); (world_up 2 "", m); (world_up 3 "", m)]).
  { repeat constructor. }
  assert (Honly : forall k, In (k, 1%nat) (connectedUsers s) -> k = "alice").
  { simpl. intros k [[=]|[]]. }
  destruct (C2_online_per_handshake_then_one_offline 1%nat "alice" s
              [(world_up 1 "", m); (world_up 2 "", m); (world_up 3 "", m)]
              (world_up 4 "") ltac:(discriminate) ltac:(discriminate)
              Hall eq_refl Honly)
    as (s' & t & Hsteps & Hb & _).
  change (steps _ s) with
    (steps (arriving 1%nat [(world_up 1 "", m); (world_up 2 "", m);
                            (world_up 3 "", m)]
            ++ [(world_up 4 "", Close 1%nat)]) s).
  rewrite Hsteps. exact Hb.
Defined.

(** C2, as stated, fails: two handshakes for the same identity on one
    socket produce two [user_online] broadcasts (a bound peer receives the
    event twice), followed by the single [user_offline]. *)
Lemma C2_counterexample :
  let s := {| connectedUsers := [("bob", 2%nat)]; db := db server0 |} in
  let t := snd (steps [(world_up 1 "", Message 1%nat (auth "alice"));
                       (world_up 2 "", Message 1%nat (auth "alice"));
                       (world_up 3 "", Close 1%nat)] s) in
  broadcasts t
  = [user_online "alice"; user_online "alice"; user_offline "alice"]
  /\ length (List.filter is_user_online (broadcasts t)) <> 1%nat
  /\ deliveries_of is_user_online t
     = [(2%nat, user_online "alice"); (1%nat, user_online "alice");
        (2%nat, user_online "alice"); (1%nat, user_online "alice")].
Proof.
  intros s t. vm_compute. repeat split. discriminate.
Qed.

(** ** No authentication gate *)

(** A socket stays unbound as long as it sends no auth handshake, whatever
    it and the other sockets do. *)
Lemma step_keeps_unauthenticated w i ws s :
  unauthenticated ws s -> handshake_on ws i = false ->
  unauthenticated ws (fst (step w i s)).
Proof.
  unfold unauthenticated. rewrite !bound_as_nil. intros Hun Hi.
  destruct i as [ws' data|ws']; cbn [handshake_on] in Hi.
  - destruct (frame_type_is "auth" data) eqn:Hauth.
    + destruct data as [|m]; [discriminate|]. cbn [frame_type_is] in Hauth.
      rewrite andb_true_r in Hi. apply Nat.eqb_neq in Hi.
      destruct (truthy (msg_userId m)) as [userId|] eqn:Hu.
      * rewrite (step_auth _ _ _ _ _ Hauth Hu). cbv zeta.
        intros k v Hin.
        assert (Hin' : In (k, v) (map_set userId ws' (connectedUsers s)))
          by (destruct (store_up w); exact Hin).
        apply In_map_set in Hin' as [[_ ->]|Hin']; eauto.
      * now rewrite (step_auth_falsy _ _ _ _ Hauth Hu).
    + destruct (step_non_auth w ws' s data Hauth)
        as (s' & t & -> & Hreg & _). cbn [fst]. now rewrite Hreg.
  - rewrite step_close.
    destruct (bound_as ws' (connectedUsers s)) as [|userId ?]; auto.
    cbv zeta. intros k v Hin.
    assert (Hin' : In (k, v) (map_delete userId (connectedUsers s)))
      by (destruct (store_up w); exact Hin).
    apply filter_In in Hin' as [Hin' _]. eauto.
Qed.

Lemma steps_keep_unauthenticated ws inputs :
  forall s,
    unauthenticated ws s ->
    Forall (fun wi => handshake_on ws (snd wi) = false) inputs ->
    unauthenticated ws (fst (steps inputs s)).
Proof.
  induction inputs as [|[w i] inputs IH]; intros s Hun Hall; auto.
  apply Forall_cons_iff in Hall as [Hi Hall]. cbn [steps].
  pose proof (step_keeps_unauthenticated w i ws s Hun Hi) as Hun1.
  destruct (step w i s) as [s1 t1]. specialize (IH s1 Hun1 Hall).
  now destruct (steps inputs s1).
Qed.




(** ** The message store *)

#[global] Instance created_le_total : Total created_le.
Proof.
  intros m1 m2. unfold created_le, created_leb.
  destruct (Message.createdAt m1), (Message.createdAt m2); auto.
  destruct (Z.leb_spec z z0), (Z.leb_spec z0 z); auto. lia.
Qed.

#[global] Instance created_le_trans : Transitive created_le.
Proof.
  intros m1 m2 m3. unfold created_le, created_leb.
  destruct (Message.createdAt m1), (Message.createdAt m2),
    (Message.createdAt m3); auto; try discriminate.
  rewrite !Z.leb_le. lia.
Qed.

Lemma between_sym a b m : between a b m = between b a m.
Proof. unfold between. apply orb_comm. Qed.

Lemma between_spec a b m :
  between a b m = true <->
  (Message.senderId m = a /\ Message.receiverId m = b)
  \/ (Message.senderId m = b /\ Message.receiverId m = a).
Proof.
  unfold between. rewrite orb_true_iff, !andb_true_iff, !String.eqb_eq.
  reflexivity.
Qed.

Lemma StronglySorted_firstn {A} (R : A -> A -> Prop) n l :
  StronglySorted R l -> StronglySorted R (firstn n l).
Proof.
  intros H. rewrite <- (firstn_skipn n l) in H.
  now apply StronglySorted_app_1_l in H.
Qed.

Lemma In_firstn {A} n (l : list A) x : In x (firstn n l) -> In x l.
Proof.
  intros H. rewrite <- (firstn_skipn n l). apply in_or_app. now left.
Qed.

Example conversation_a_b :
  map Message.id (getMessagesBetweenUsers "a" "b" None sample_db)
  = ["2"; "5"; "1"; "4"].
Proof. reflexivity. Qed.

Example conversation_b_a_limit_2 :
  map Message.id (getMessagesBetweenUsers "b" "a" (Some 2%nat) sample_db)
  = ["2"; "5"].
Proof. reflexivity. Qed.

Lemma filter_between a b (l : list Message.t) :
  List.filter (between a b) l
  = filter (fun m => (Message.senderId m = a /\ Message.receiverId m = b)
                     \/ (Message.senderId m = b /\ Message.receiverId m = a))
      l.
Proof.
  induction l as [|m l IH]; [reflexivity|].
  cbn [List.filter]. rewrite filter_cons, <- IH.
  destruct (between a b m) eqn:E; case_decide as H; auto.
  - exfalso. apply H. now apply between_spec.
  - apply between_spec in H. congruence.
Qed.

Lemma created_le_spec m1 m2 :
  created_le m1 m2 <->
  match Message.createdAt m1, Message.createdAt m2 with
  | Some t1, Some t2 => t1 <= t2
  | None, Some _ => False
  | _, None => True
  end.
Proof.
  unfold created_le, created_leb.
  destruct (Message.createdAt m1), (Message.createdAt m2);
    rewrite ?Z.leb_le; intuition discriminate.
Qed.

Lemma StronglySorted_impl {A} (R1 R2 : A -> A -> Prop) l :
  (forall x y, R1 x y -> R2 x y) ->
  StronglySorted R1 l -> StronglySorted R2 l.
Proof.
  intros HR. induction 1 as [|x l Hl IH Hall]; constructor; auto.
  eapply Forall_impl; [exact Hall|]. auto.
Qed.

(** C6. [getMessagesBetweenUsers(a, b, limit)] returns rows of the
    messages table that [a] sent to [b] or [b] sent to [a], in ascending
    order of [createdAt] (rows without one last). They are the first
    [limit] (50 when the argument is omitted) of ALL the rows of the table
    in either direction between the two, taken in that order: each such row
    is returned as often as it is in the table when there are at most
    [limit] of them. Swapping [a] and [b] gives the same list. *)
Theorem C6_conversation_ascending_and_symmetric a b limit d :
  let result := getMessagesBetweenUsers a b limit d in
  let exchanged :=
    filter (fun m => (Message.senderId m = a /\ Message.receiverId m = b)
                     \/ (Message.senderId m = b /\ Message.receiverId m = a))
      (messages d) in
  let ascending m1 m2 :=
    match Message.createdAt m1, Message.createdAt m2 with
    | Some t1, Some t2 => t1 <= t2
    | None, Some _ => False
    | _, None => True
    end in
  let n := match limit with Some n => n | None => 50%nat end in
  getMessagesBetweenUsers b a limit d = result
  /\ StronglySorted ascending result
  /\ (forall m, In m result ->
        In m (messages d)
        /\ ((Message.senderId m = a /\ Message.receiverId m = b)
            \/ (Message.senderId m = b /\ Message.receiverId m = a)))
  /\ (exists later,
        Permutation (result ++ later) exchanged
        /\ StronglySorted ascending (result ++ later))
  /\ length result = Nat.min n (length exchanged)
  /\ ((length exchanged <= n)%nat ->
      Permutation result exchanged
      /\ forall m, In m (messages d) ->
                   (Message.senderId m = a /\ Message.receiverId m = b)
                   \/ (Message.senderId m = b /\ Message.receiverId m = a) ->
                   In m result)
  /\ getMessagesBetweenUsers a b None d
     = getMessagesBetweenUsers a b (Some 50%nat) d.
Proof.
  intros result exchanged ascending n.
  assert (Hexchanged : exchanged = List.filter (between a b) (messages d))
    by (symmetry; apply filter_between).
  assert (Hperm : Permutation (orderBy_createdAt_asc exchanged) exchanged)
    by apply merge_sort_Permutation.
  assert (Hsorted : StronglySorted ascending (orderBy_createdAt_asc exchanged)).
  { apply (StronglySorted_impl created_le).
    - intros x y. apply created_le_spec.
    - apply (StronglySorted_merge_sort created_le). }
  assert (Hresult : result = firstn n (orderBy_createdAt_asc exchanged))
    by (rewrite Hexchanged; reflexivity).
  assert (Hall : (length exchanged <= n)%nat -> Permutation result exchanged).
  { intros Hle. rewrite Hresult, firstn_all2; auto.
    now rewrite (Permutation_length Hperm). }
  split; [|split; [|split; [|split; [|split; [|split]]]]].
  - unfold result, getMessagesBetweenUsers.
    now rewrite (filter_ext _ _ (between_sym b a)).
  - rewrite Hresult. now apply StronglySorted_firstn.
  - intros m H. rewrite Hresult in H. apply In_firstn in H.
    apply (Permutation_in _ Hperm) in H. rewrite Hexchanged in H.
    apply filter_In in H as [Hin H]. split; auto. now apply between_spec.
  - exists (skipn n (orderBy_createdAt_asc exchanged)).
    rewrite Hresult, firstn_skipn. auto.
  - rewrite Hresult, length_firstn. now rewrite (Permutation_length Hperm).
  - intros Hle. split; [now apply Hall|].
    intros m Hin Hdir.
    apply (Permutation_in _ (Permutation_sym (Hall Hle))).
    rewrite Hexchanged. apply filter_In. split; auto.
    now apply between_spec.
  - reflexivity.
Qed.

Lemma C6_witness :
  getMessagesBetweenUsers "b" "a" None sample_db
  = getMessagesBetweenUsers "a" "b" None sample_db
  /\ Permutation (getMessagesBetweenUsers "a" "b" None sample_db)
       [row "1" "a" "b" (Some 30) (Some false);
        row "2" "b" "a" (Some 10) (Some false);
        row "4" "b" "a" None (Some true);
        row "5" "a" "b" (Some 20) None].
Proof.
  destruct (C6_conversation_ascending_and_symmetric "a" "b" None sample_db)
    as (Hsym & _ & _ & _ & _ & Hall & _).
  split; [exact Hsym|].
  apply Hall. apply Nat.leb_le. reflexivity.
Defined.

Lemma unread_from_to_spec senderId receiverId m :
  unread_from_to senderId receiverId m = true <->
  Message.senderId m = senderId /\ Message.receiverId m = receiverId
  /\ Message.isRead m = Some false.
Proof.
  unfold unread_from_to. rewrite !andb_true_iff, !String.eqb_eq.
  destruct (Message.isRead m) as [[]|]; intuition discriminate.
Qed.

Example mark_b_to_a_read :
  map Message.isRead (messages (markMessagesAsRead "b" "a" sample_db))
  = [Some false; Some true; None; Some true; None].
Proof. reflexivity. Qed.

(** C7. [markMessagesAsRead(senderId, receiverId)] changes the table row
    by row: a row from [senderId] to [receiverId] with [isRead = false]
    becomes the same row with [isRead = true]; every other row, and the
    users table, is unchanged. No unread row from [senderId] to
    [receiverId] is left, and a second application changes nothing. *)
Theorem C7_markMessagesAsRead_exact_and_idempotent senderId receiverId d :
  let unread m :=
    Message.senderId m = senderId /\ Message.receiverId m = receiverId
    /\ Message.isRead m = Some false in
  let d' := markMessagesAsRead senderId receiverId d in
  users d' = users d
  /\ Forall2 (fun m m' =>
                (unread m -> m' = Message.set_isRead (Some true) m)
                /\ (~ unread m -> m' = m))
       (messages d) (messages d')
  /\ (forall m', In m' (messages d') -> ~ unread m')
  /\ markMessagesAsRead senderId receiverId d' = d'.
Proof.
  intros unread d'. subst d'. unfold markMessagesAsRead. simpl.
  split; [reflexivity|]. split; [|split].
  - induction (messages d) as [|m l IH]; simpl; constructor; auto.
    destruct (unread_from_to senderId receiverId m) eqn:E.
    + apply unread_from_to_spec in E. split; auto. intros H. now destruct H.
    + split; auto. intros H. apply unread_from_to_spec in H. congruence.
  - intros m' Hin Hun. apply in_map_iff in Hin as (m & <- & _).
    destruct (unread_from_to senderId receiverId m) eqn:E.
    + destruct Hun as (_ & _ & Hun). discriminate.
    + apply unread_from_to_spec in Hun. congruence.
  - f_equal. rewrite map_map. apply map_ext. intros m.
    destruct (unread_from_to senderId receiverId m) eqn:E; [|now rewrite E].
    destruct (unread_from_to _ _ (Message.set_isRead _ m)) eqn:E';
      [|reflexivity].
    apply unread_from_to_spec in E' as (_ & _ & E'). discriminate.
Qed.

Lemma C7_witness :
  map Message.isRead (messages (markMessagesAsRead "b" "a" sample_db))
  = [Some false; Some true; None; Some true; None]
  /\ markMessagesAsRead "b" "a" (markMessagesAsRead "b" "a" sample_db)
     = markMessagesAsRead "b" "a" sample_db.
Proof.
  destruct (C7_markMessagesAsRead_exact_and_idempotent "b" "a" sample_db)
    as (_ & _ & _ & Hidem).
  split; [reflexivity|exact Hidem].
Defined.

(** ** Unread counts *)

Lemma unread_to_from senderId receiverId m :
  unread_from_to senderId receiverId m
  = String.eqb (Message.senderId m) senderId && unread_to receiverId m.
Proof. unfold unread_from_to, unread_to. now rewrite andb_assoc. Qed.

Lemma unread_from_to_unread_to senderId receiverId m :
  unread_from_to senderId receiverId m = true -> unread_to receiverId m = true.
Proof. rewrite unread_to_from. now intros [_ ?]%andb_true_iff. Qed.

Lemma unread_from_to_not_other senderId receiverId other m :
  unread_from_to senderId receiverId m = true -> other <> receiverId ->
  unread_to other m = false.
Proof.
  intros (_ & Hr & _)%unread_from_to_spec Hother. unfold unread_to.
  rewrite Hr. apply String.eqb_neq in Hother.
  rewrite String.eqb_sym in Hother. now rewrite Hother.
Qed.

Lemma unread_to_mark_row senderId receiverId other m :
  unread_to other
    (if unread_from_to senderId receiverId m
     then Message.set_isRead (Some true) m else m)
  = unread_to other m && negb (unread_from_to senderId receiverId m).
Proof.
  destruct (unread_from_to senderId receiverId m); simpl.
  - unfold unread_to. simpl. now rewrite !andb_false_r.
  - now rewrite andb_true_r.
Qed.

Lemma mark_row_not_unread_from_to senderId receiverId m :
  unread_from_to senderId receiverId
    (if unread_from_to senderId receiverId m
     then Message.set_isRead (Some true) m else m)
  = false.
Proof.
  destruct (unread_from_to senderId receiverId m) eqn:E; auto.
  unfold unread_from_to. simpl. now rewrite andb_false_r.
Qed.

(** X1. [markMessagesAsRead(senderId, receiverId)] lowers
    [getUnreadMessageCount(receiverId)] by exactly the number of unread
    messages that [senderId] had sent to [receiverId], leaves no unread
    message from [senderId] to [receiverId], and does not change the unread
    count of any other user. *)
Theorem markMessagesAsRead_lowers_unread_count senderId receiverId d :
  let d' := markMessagesAsRead senderId receiverId d in
  (getUnreadMessageCount receiverId d'
   + length (List.filter (unread_from_to senderId receiverId) (messages d))
   = getUnreadMessageCount receiverId d)%nat
  /\ List.filter (unread_from_to senderId receiverId) (messages d') = []
  /\ (forall other, other <> receiverId ->
        getUnreadMessageCount other d' = getUnreadMessageCount other d).
Proof.
  unfold getUnreadMessageCount, markMessagesAsRead. simpl.
  induction (messages d) as [|m l (IH1 & IH2 & IH3)]; simpl; [auto|].
  rewrite mark_row_not_unread_from_to.
  split; [|split; [exact IH2|]].
  - rewrite unread_to_mark_row.
    destruct (unread_from_to senderId receiverId m) eqn:E.
    + rewrite (unread_from_to_unread_to _ _ _ E). simpl.
      rewrite <- IH1. lia.
    + rewrite andb_true_r.
      destruct (unread_to receiverId m); simpl; rewrite <- IH1; lia.
  - intros other Hother. rewrite unread_to_mark_row.
    destruct (unread_from_to senderId receiverId m) eqn:E.
    + rewrite (unread_from_to_not_other _ _ _ _ E Hother). simpl. auto.
    + rewrite andb_true_r.
      destruct (unread_to other m); simpl; now rewrite IH3.
Qed.

Lemma markMessagesAsRead_lowers_unread_count_witness :
  getUnreadMessageCount "a" sample_db = 1%nat
  /\ getUnreadMessageCount "a" (markMessagesAsRead "b" "a" sample_db) = 0%nat
  /\ getUnreadMessageCount "b" (markMessagesAsRead "b" "a" sample_db)
     = getUnreadMessageCount "b" sample_db.
Proof.
  destruct (markMessagesAsRead_lowers_unread_count "b" "a" sample_db)
    as (_ & _ & Hother).
  split; [reflexivity|split; [reflexivity|]].
  apply Hother. discriminate.
Defined.

(** X2. A stored chat message counts as unread for its receiver and for
    nobody else: after a [chat_message] with a valid payload has been
    handled (the store accepting the insert),
    [getUnreadMessageCount(receiverId)] is one higher and the unread count
    of every other user is unchanged. *)
Theorem chat_message_raises_receivers_unread_count w ws s m messageData :
  type_is "chat_message" m = true ->
  messageSchema_parse (msg_data m) = Valid messageData ->
  store_up w = true ->
  let d' := db (fst (step w (Message ws (Parsed m)) s)) in
  getUnreadMessageCount (InsertMessage.receiverId messageData) d'
  = S (getUnreadMessageCount (InsertMessage.receiverId messageData) (db s))
  /\ (forall other, other <> InsertMessage.receiverId messageData ->
        getUnreadMessageCount other d' = getUnreadMessageCount other (db s)).
Proof.
  intros Ht Hp Hup. rewrite (step_chat_stored _ _ _ _ _ Ht Hp Hup).
  unfold getUnreadMessageCount. cbn [fst db messages].
  split; [|intros other Hother]; rewrite List.filter_app, List.length_app;
    cbn [List.filter]; unfold unread_to at 2; cbn [new_row Message.receiverId
      Message.isRead].
  - rewrite String.eqb_refl. simpl. lia.
  - apply String.eqb_neq in Hother. rewrite String.eqb_sym in Hother.
    rewrite Hother. simpl. lia.
Qed.

Lemma chat_message_raises_receivers_unread_count_witness :
  getUnreadMessageCount "bob"
    (db (fst (step (world_up 5 "m1")
                (Message 1%nat (chat_message (chat_payload "alice" "bob" "hi")))
                server0)))
  = 1%nat.
Proof.
  apply (chat_message_raises_receivers_unread_count (world_up 5 "m1") 1%nat
           server0
           {| msg_type := Some (JStr "chat_message"); msg_userId := None;
              msg_data := Some (chat_payload "alice" "bob" "hi");
              msg_senderId := None; msg_receiverId := None;
              msg_isTyping := None |}
           {| InsertMessage.senderId := "alice";
              InsertMessage.receiverId := "bob";
              InsertMessage.content := "hi";
              InsertMessage.messageType := "text";
              InsertMessage.imageUrl := None |}
           eq_refl eq_refl eq_refl).
Defined.

(** ** Storing and fetching a conversation *)

Lemma conversation_after_createMessage w message d a b :
  List.filter (between a b) (messages (fst (createMessage w message d)))
  = List.filter (between a b) (messages d)
    ++ (if between a b (new_row w message) then [new_row w message] else []).
Proof. simpl. rewrite List.filter_app. simpl. now destruct (between _ _ _). Qed.

(** X3. After [createMessage], the conversation of any pair of users the
    new message is not between is returned as before; and for the pair it
    is between, as long as the conversation had fewer rows than the limit
    (50 by default), [getMessagesBetweenUsers] returns the rows it returned
    before together with the new row. *)
Theorem createMessage_then_getMessagesBetweenUsers w message d a b limit :
  let d' := fst (createMessage w message d) in
  let saved := snd (createMessage w message d) in
  let n := match limit with Some n => n | None => 50%nat end in
  (between a b saved = false ->
   getMessagesBetweenUsers a b limit d' = getMessagesBetweenUsers a b limit d)
  /\ (between a b saved = true ->
      (length (List.filter (between a b) (messages d)) < n)%nat ->
      Permutation (getMessagesBetweenUsers a b limit d')
        (getMessagesBetweenUsers a b limit d ++ [saved])).
Proof.
  cbv zeta. unfold getMessagesBetweenUsers.
  rewrite conversation_after_createMessage.
  change (snd (createMessage w message d)) with (new_row w message).
  split; intros Hb; rewrite Hb.
  - now rewrite app_nil_r.
  - intros Hlen.
    set (n := match limit with Some n => n | None => 50%nat end) in *.
    set (exchanged := List.filter (between a b) (messages d)) in *.
    assert (H1 : Permutation (orderBy_createdAt_asc (exchanged ++ [new_row w message]))
                   (exchanged ++ [new_row w message]))
      by apply merge_sort_Permutation.
    assert (H2 : Permutation (orderBy_createdAt_asc exchanged) exchanged)
      by apply merge_sort_Permutation.
    rewrite !firstn_all2.
    + rewrite H1, H2. reflexivity.
    + rewrite (Permutation_length H2). lia.
    + rewrite (Permutation_length H1), List.length_app. simpl. lia.
Qed.

Lemma createMessage_then_getMessagesBetweenUsers_witness :
  let message := {| InsertMessage.senderId := "c";
                    InsertMessage.receiverId := "a";
                    InsertMessage.content := "hello";
                    InsertMessage.messageType := "text";
                    InsertMessage.imageUrl := None |} in
  let d' := fst (createMessage (world_up 40 "6") message sample_db) in
  getMessagesBetweenUsers "a" "b" None d'
  = getMessagesBetweenUsers "a" "b" None sample_db
  /\ Permutation (getMessagesBetweenUsers "a" "c" None d')
       (getMessagesBetweenUsers "a" "c" None sample_db
        ++ [new_row (world_up 40 "6") message]).
Proof.
  intros message d'.
  destruct (createMessage_then_getMessagesBetweenUsers (world_up 40 "6")
              message sample_db "a" "b" None) as [Hother _].
  destruct (createMessage_then_getMessagesBetweenUsers (world_up 40 "6")
              message sample_db "a" "c" None) as [_ Hpair].
  split; [apply Hother; reflexivity|].
  apply Hpair; [reflexivity|]. apply Nat.ltb_lt. reflexivity.
Defined.

(** X4. [getMessagesBetweenUsers] keeps the OLDEST [limit] rows
    ([orderBy(asc(createdAt)).limit(limit)]). So once a conversation holds
    [limit] rows or more (50 by default), a message stored later than all of
    them is not among the rows returned for that conversation. *)
Theorem getMessagesBetweenUsers_hides_message_beyond_limit
    w message d a b limit :
  let d' := fst (createMessage w message d) in
  let saved := snd (createMessage w message d) in
  let n := match limit with Some n => n | None => 50%nat end in
  let exchanged := List.filter (between a b) (messages d) in
  between a b saved = true ->
  (n <= length exchanged)%nat ->
  (forall x, In x exchanged ->
             exists t, Message.createdAt x = Some t /\ t < now w) ->
  ~ In saved (getMessagesBetweenUsers a b limit d').
Proof.
  cbv zeta. unfold getMessagesBetweenUsers.
  rewrite conversation_after_createMessage.
  change (snd (createMessage w message d)) with (new_row w message).
  intros Hb Hlen Hold Hin. rewrite Hb in Hin.
  set (n := match limit with Some n => n | None => 50%nat end) in *.
  set (exchanged := List.filter (between a b) (messages d)) in *.
  set (saved := new_row w message) in *.
  set (sorted := orderBy_createdAt_asc (exchanged ++ [saved])) in *.
  assert (Hperm : Permutation sorted (exchanged ++ [saved]))
    by apply merge_sort_Permutation.
  assert (Hsorted : StronglySorted created_le sorted)
    by apply (StronglySorted_merge_sort created_le).
  rewrite <- (firstn_skipn n sorted) in Hperm, Hsorted.
  apply in_split in Hin as (l1 & l2 & Hfirst). rewrite Hfirst in Hperm, Hsorted.
  (* the rows behind the first [n] all come from the old conversation *)
  assert (Hrest : Permutation (l1 ++ l2 ++ skipn n sorted) exchanged).
  { rewrite <- (app_nil_r exchanged).
    apply (Permutation_app_inv l1 (l2 ++ skipn n sorted) exchanged [] saved).
    rewrite <- Hperm, <- app_assoc. reflexivity. }
  destruct (skipn n sorted) as [|x rest] eqn:Hskip.
  - (* there is at least one such row *)
    apply (f_equal (@length _)) in Hskip. rewrite length_skipn in Hskip.
    assert (length sorted = S (length exchanged)).
    { unfold sorted, orderBy_createdAt_asc.
      rewrite (Permutation_length (merge_sort_Permutation _ _)).
      rewrite List.length_app. simpl. lia. }
    simpl in Hskip. lia.
  - assert (Hx : In x exchanged).
    { apply (Permutation_in _ Hrest). apply in_or_app. right.
      apply in_or_app. right. now left. }
    destruct (Hold x Hx) as (t & Ht & Hlt).
    assert (Hle : created_le saved x).
    { apply (StronglySorted_app_1_elem_of _ _ _ _ _ Hsorted).
      - apply list_elem_of_In, in_or_app. right. now left.
      - apply list_elem_of_In. now left. }
    unfold created_le, saved in Hle. simpl in Hle. rewrite Ht in Hle.
    simpl in Hle. apply Z.leb_le in Hle. lia.
Qed.

Lemma getMessagesBetweenUsers_hides_message_beyond_limit_witness :
  let message := {| InsertMessage.senderId := "a";
                    InsertMessage.receiverId := "b";
                    InsertMessage.content := "latest";
                    InsertMessage.messageType := "text";
                    InsertMessage.imageUrl := None |} in
  let d := {| users := [];
              messages := [row "1" "a" "b" (Some 10) (Some false);
                           row "2" "b" "a" (Some 20) (Some false)] |} in
  ~ In (new_row (world_up 30 "3") message)
      (getMessagesBetweenUsers "a" "b" (Some 2%nat)
         (fst (createMessage (world_up 30 "3") message d))).
Proof.
  intros message d.
  apply (getMessagesBetweenUsers_hides_message_beyond_limit
           (world_up 30 "3") message d "a" "b" (Some 2%nat)).
  - reflexivity.
  - apply Nat.leb_le. reflexivity.
  - simpl. intros x [<-|[<-|[]]]; eexists; (split; [reflexivity|]);
      reflexivity.
Defined.

(** ** Presence in the users table *)

Lemma Database_eta d : {| users := users d; messages := messages d |} = d.
Proof. now destruct d. Qed.

Lemma getUser_after_update w id isOnline d other :
  getUser other (updateUserOnlineStatus w id isOnline d)
  = if String.eqb other id
    then option_map (set_online isOnline (now w)) (getUser other d)
    else getUser other d.
Proof.
  unfold getUser, updateUserOnlineStatus. simpl.
  induction (users d) as [|u l IH]; simpl.
  - now destruct (String.eqb other id).
  - destruct (String.eqb_spec (User.id u) id) as [Hid|Hid]; simpl.
    + destruct (String.eqb_spec (User.id u) other) as [Ho|Ho]; simpl.
      * rewrite <- Ho, Hid, String.eqb_refl. reflexivity.
      * exact IH.
    + destruct (String.eqb_spec (User.id u) other) as [Ho|Ho]; simpl.
      * rewrite <- Ho. apply String.eqb_neq in Hid. now rewrite Hid.
      * exact IH.
Qed.

Lemma updateUserOnlineStatus_columns w id isOnline d :
  let d' := updateUserOnlineStatus w id isOnline d in
  map User.id (users d') = map User.id (users d)
  /\ map User.username (users d') = map User.username (users d)
  /\ map User.password (users d') = map User.password (users d)
  /\ messages d' = messages d.
Proof.
  cbv zeta. unfold updateUserOnlineStatus. simpl. rewrite !map_map.
  repeat split; apply map_ext; intros u; now destruct (String.eqb _ _).
Qed.

Lemma listed_after_online_write w id d u :
  In u (users d) -> User.id u = id ->
  In (publicUser (set_online true (now w) u))
     (getOnlineUsers (updateUserOnlineStatus w id true d)).
Proof.
  intros Hu Hid. unfold getOnlineUsers, updateUserOnlineStatus. simpl.
  apply in_map. apply filter_In. split; [|reflexivity].
  apply in_map_iff. exists u. split; auto.
  apply String.eqb_eq in Hid. now rewrite Hid.
Qed.

(** X5. [updateUserOnlineStatus(id, isOnline)] is an UPDATE, not an
    upsert: it adds and removes no row and changes no id, username or
    password; when no row has the id, the database is left exactly as it
    was. The row with the id, if any, is then returned by [getUser] with
    the new [isOnline], [lastSeen] and [updatedAt], and every other user is
    returned as before. *)
Theorem updateUserOnlineStatus_updates_one_user w id isOnline d :
  let d' := updateUserOnlineStatus w id isOnline d in
  map User.id (users d') = map User.id (users d)
  /\ map User.username (users d') = map User.username (users d)
  /\ map User.password (users d') = map User.password (users d)
  /\ messages d' = messages d
  /\ getUser id d' = option_map (set_online isOnline (now w)) (getUser id d)
  /\ (forall other, other <> id -> getUser other d' = getUser other d)
  /\ ((forall u, In u (users d) -> User.id u <> id) -> d' = d).
Proof.
  cbv zeta.
  destruct (updateUserOnlineStatus_columns w id isOnline d)
    as (Hid & Hname & Hpw & Hmsg).
  repeat (split; [assumption|]). repeat split.
  - rewrite getUser_after_update. now rewrite String.eqb_refl.
  - intros other Hother. rewrite getUser_after_update.
    apply String.eqb_neq in Hother. now rewrite Hother.
  - intros Hnone. unfold updateUserOnlineStatus.
    rewrite <- (Database_eta d) at 3. f_equal.
    rewrite <- (map_id (users d)) at 2. apply map_ext_in.
    intros u Hu. apply Hnone in Hu. apply String.eqb_neq in Hu.
    now rewrite Hu.
Qed.

Lemma updateUserOnlineStatus_updates_one_user_witness :
  updateUserOnlineStatus (world_up 9 "") "nobody" true sample_chat_db
  = sample_chat_db.
Proof.
  destruct (updateUserOnlineStatus_updates_one_user (world_up 9 "") "nobody"
              true sample_chat_db) as (_ & _ & _ & _ & _ & _ & Hnone).
  apply Hnone.
  simpl. intros u [<-|[<-|[<-|[]]]]; discriminate.
Defined.

(** X6. [getOnlineUsers] after [updateUserOnlineStatus(id, isOnline)]: a
    user with that id is listed exactly when [isOnline] is true (so never
    after a write of [false]), and the users with another id are listed
    as they were before. *)
Theorem getOnlineUsers_after_updateUserOnlineStatus w id isOnline d :
  let d' := updateUserOnlineStatus w id isOnline d in
  (forall p, In p (getOnlineUsers d') -> PublicUser.id p = id ->
             isOnline = true)
  /\ (isOnline = true ->
      forall u, In u (users d) -> User.id u = id ->
                In (publicUser (set_online true (now w) u))
                   (getOnlineUsers d'))
  /\ (forall p, PublicUser.id p <> id ->
                In p (getOnlineUsers d') <-> In p (getOnlineUsers d)).
Proof.
  cbv zeta. unfold getOnlineUsers, updateUserOnlineStatus. simpl.
  split; [|split].
  - intros p Hp Hid. apply in_map_iff in Hp as (u' & <- & Hu').
    apply filter_In in Hu' as [Hu' Hon].
    apply in_map_iff in Hu' as (u & <- & _). simpl in Hid.
    destruct (String.eqb_spec (User.id u) id) as [_|Hne].
    + unfold is_online in Hon. simpl in Hon. now destruct isOnline.
    + contradiction.
  - intros -> u Hu Hid. now apply listed_after_online_write.
  - intros p Hp. rewrite !in_map_iff. split.
    + intros (u' & <- & Hu'). apply filter_In in Hu' as [Hu' Hon].
      apply in_map_iff in Hu' as (u & <- & Hu).
      destruct (String.eqb_spec (User.id u) id) as [Hid|Hne].
      * exfalso. apply Hp. exact Hid.
      * exists u. split; auto. now apply filter_In.
    + intros (u & <- & Hu). apply filter_In in Hu as [Hu Hon].
      exists u. split; auto. apply filter_In. split; auto.
      apply in_map_iff. exists u. split; auto.
      simpl in Hp. apply String.eqb_neq in Hp. now rewrite Hp.
Qed.

Lemma getOnlineUsers_after_updateUserOnlineStatus_witness :
  map PublicUser.id
    (getOnlineUsers
       (updateUserOnlineStatus (world_up 9 "") "b" true sample_chat_db))
  = ["a"; "b"]
  /\ In (publicUser (set_online true 9 (sample_user "b" "bob" None)))
        (getOnlineUsers
           (updateUserOnlineStatus (world_up 9 "") "b" true sample_chat_db)).
Proof.
  split; [reflexivity|].
  destruct (getOnlineUsers_after_updateUserOnlineStatus (world_up 9 "") "b"
              true sample_chat_db) as (_ & Hlisted & _).
  apply (Hlisted eq_refl (sample_user "b" "bob" None)); [|reflexivity].
  simpl. auto.
Defined.

(** ** The chat list *)

Lemma chats_with_spec userId u m :
  chats_with userId u m = true <->
  User.id u <> userId /\ between userId (User.id u) m = true.
Proof.
  unfold chats_with, between.
  destruct (String.eqb_spec (User.id u) userId) as [->|Hne].
  - rewrite !andb_false_r. split; [discriminate|]. now intros [[] _].
  - simpl. rewrite !andb_true_r.
    destruct (String.eqb_spec (Message.senderId m) (User.id u)) as [Hs|Hs],
      (String.eqb_spec (Message.receiverId m) (User.id u)) as [Hr|Hr],
      (String.eqb_spec (Message.senderId m) userId) as [Hs'|Hs'],
      (String.eqb_spec (Message.receiverId m) userId) as [Hr'|Hr'];
      simpl; split; try tauto; try discriminate; congruence.
Qed.

Lemma In_chatUsers userId d p :
  In p (chatUsers userId d) <->
  exists u m, In u (users d) /\ In m (messages d)
              /\ chats_with userId u m = true /\ p = publicUser u.
Proof.
  unfold chatUsers.
  rewrite <- list_elem_of_In, elem_of_remove_dups, list_elem_of_In.
  rewrite in_flat_map. split.
  - intros (u & Hu & Hp). apply in_flat_map in Hp as (m & Hm & Hp).
    destruct (chats_with userId u m) eqn:E; [|destruct Hp].
    destruct Hp as [<-|[]]. now exists u, m.
  - intros (u & m & Hu & Hm & E & ->). exists u. split; auto.
    apply in_flat_map. exists m. split; auto. rewrite E. now left.
Qed.

Lemma created_le_refl m : created_le m m.
Proof. now destruct (created_le_total m m). Qed.

#[global] Instance flip_created_le_total : Total (flip created_le).
Proof. intros m1 m2. unfold flip. destruct (created_le_total m1 m2); auto. Qed.

#[global] Instance flip_created_le_trans : Transitive (flip created_le).
Proof. intros m1 m2 m3 H1 H2. unfold flip in *. now transitivity m2. Qed.

(** The first row in descending order is a latest one. *)
Lemma latest_of_conversation (l : list Message.t) m0 :
  In m0 l ->
  exists m, hd_error (firstn 1 (orderBy_createdAt_desc l)) = Some m
            /\ In m l /\ forall m', In m' l -> created_le m' m.
Proof.
  intros H0.
  assert (Hperm : Permutation (orderBy_createdAt_desc l) l)
    by apply merge_sort_Permutation.
  assert (Hsorted : StronglySorted (flip created_le) (orderBy_createdAt_desc l))
    by apply (StronglySorted_merge_sort (flip created_le)).
  destruct (orderBy_createdAt_desc l) as [|m sorted].
  - apply (Permutation_in m0 (Permutation_sym Hperm)) in H0. destruct H0.
  - exists m. split; [reflexivity|]. split.
    + apply (Permutation_in _ Hperm). now left.
    + intros m' Hm'. apply Permutation_sym in Hperm.
      apply (Permutation_in _ Hperm) in Hm' as [<-|Hm'].
      * apply created_le_refl.
      * apply StronglySorted_inv in Hsorted as [_ Hall].
        rewrite Forall_forall in Hall. apply (Hall m').
        now apply list_elem_of_In.
Qed.

Lemma sort_insert_Permutation e l : Permutation (sort_insert e l) (e :: l).
Proof.
  induction l as [|e' l IH]; simpl; auto.
  destruct (compare_entries e' e <=? 0); auto.
  rewrite IH. apply perm_swap.
Qed.

Lemma sort_insert_sorted e l :
  StronglySorted (fun e1 e2 => time_of e2 <= time_of e1) l ->
  StronglySorted (fun e1 e2 => time_of e2 <= time_of e1) (sort_insert e l).
Proof.
  induction 1 as [|e' l Hl IH Hall]; simpl.
  - repeat constructor.
  - unfold compare_entries.
    destruct (Z.leb_spec (time_of e - time_of e') 0) as [Hle|Hgt].
    + constructor; auto.
      apply Forall_forall. intros x Hx. apply list_elem_of_In in Hx.
      apply (Permutation_in _ (sort_insert_Permutation e l)) in Hx
        as [<-|Hx]; [lia|].
      rewrite Forall_forall in Hall. apply Hall. now apply list_elem_of_In.
    + constructor; [now constructor|].
      constructor; [lia|].
      eapply Forall_impl; [exact Hall|]. simpl. intros x Hx. lia.
Qed.

Lemma sort_by_time_desc_spec l :
  Permutation (sort_by_time_desc l) l
  /\ StronglySorted (fun e1 e2 => time_of e2 <= time_of e1)
       (sort_by_time_desc l).
Proof.
  unfold sort_by_time_desc.
  assert (H : forall acc,
             StronglySorted (fun e1 e2 => time_of e2 <= time_of e1) acc ->
             Permutation (fold_left (fun sorted e => sort_insert e sorted) l acc)
               (acc ++ l)
             /\ StronglySorted (fun e1 e2 => time_of e2 <= time_of e1)
                  (fold_left (fun sorted e => sort_insert e sorted) l acc)).
  { induction l as [|e l IH]; intros acc Hacc; simpl.
    - now rewrite app_nil_r.
    - destruct (IH (sort_insert e acc) (sort_insert_sorted e acc Hacc))
        as [Hp Hs].
      split; auto. rewrite Hp, sort_insert_Permutation.
      change (e :: acc) with ([e] ++ acc).
      rewrite (Permutation_app_comm [e] acc), <- app_assoc. reflexivity. }
  apply (H []). constructor.
Qed.

(** X7. Every entry of [getUserChatList(userId)] is for a user other than
    [userId]; its [unreadCount] is the number of unread messages that user
    sent to [userId]; and its [lastMessage] is always present: a message
    between the two that no message between them comes after (a row
    without [createdAt] counting as latest). *)
Theorem getUserChatList_entries userId d e :
  In e (getUserChatList userId d) ->
  exists u,
    In u (users d)
    /\ ChatListEntry.user e = publicUser u
    /\ User.id u <> userId
    /\ ChatListEntry.unreadCount e
       = length (List.filter (unread_from_to (User.id u) userId) (messages d))
    /\ exists m,
         ChatListEntry.lastMessage e = Some m
         /\ In m (messages d)
         /\ between userId (User.id u) m = true
         /\ forall m', In m' (messages d) ->
                       between userId (User.id u) m' = true ->
                       created_le m' m.
Proof.
  unfold getUserChatList. intros He.
  apply (Permutation_in _ (proj1 (sort_by_time_desc_spec _))) in He.
  apply in_map_iff in He as (p & <- & Hp).
  apply In_chatUsers in Hp as (u & m0 & Hu & Hm0 & Hchat & ->).
  apply chats_with_spec in Hchat as [Hne Hb].
  exists u. repeat (split; [auto; reflexivity|]).
  assert (H0 : In m0 (List.filter (between userId (User.id u)) (messages d)))
    by now apply filter_In.
  destruct (latest_of_conversation _ _ H0) as (m & Hhd & Hm & Hlatest).
  exists m. simpl. split; [exact Hhd|].
  apply filter_In in Hm as [Hm Hbm]. repeat split; auto.
  intros m' Hm' Hbm'. apply Hlatest. now apply filter_In.
Qed.

Lemma getUserChatList_entries_witness :
  map (fun e => (PublicUser.id (ChatListEntry.user e),
                 option_map Message.id (ChatListEntry.lastMessage e),
                 ChatListEntry.unreadCount e))
    (getUserChatList "a" sample_chat_db)
  = [("c", Some "3", 0%nat); ("b", Some "4", 1%nat)]
  /\ exists u, In u (users sample_chat_db)
               /\ publicUser (sample_user "b" "bob" None) = publicUser u
               /\ User.id u <> "a".
Proof.
  split; [reflexivity|].
  destruct (getUserChatList_entries "a" sample_chat_db
              (chat_entry "a" sample_chat_db
                 (publicUser (sample_user "b" "bob" None))))
    as (u & Hu & Heq & Hne & _).
  - vm_compute. right. now left.
  - exists u. auto.
Defined.

(** X8. [getUserChatList(userId)] is sorted by the time of the last
    message, most recent first (a missing time counting as 0); it lists no
    user twice; and it lists every other user with whom [userId] has
    exchanged a message, in either direction. *)
Theorem getUserChatList_sorted_and_complete userId d :
  StronglySorted (fun e1 e2 => time_of e2 <= time_of e1)
    (getUserChatList userId d)
  /\ List.NoDup (map ChatListEntry.user (getUserChatList userId d))
  /\ (forall u m,
        In u (users d) -> In m (messages d) ->
        User.id u <> userId -> between userId (User.id u) m = true ->
        exists e, In e (getUserChatList userId d)
                  /\ ChatListEntry.user e = publicUser u).
Proof.
  unfold getUserChatList.
  destruct (sort_by_time_desc_spec
              (map (chat_entry userId d) (chatUsers userId d))) as [Hp Hs].
  split; [exact Hs|]. split.
  - apply (Permutation_NoDup (Permutation_map _ (Permutation_sym Hp))).
    rewrite map_map. simpl. rewrite map_id.
    apply NoDup_ListNoDup. unfold chatUsers. apply NoDup_remove_dups.
  - intros u m Hu Hm Hne Hb.
    exists (chat_entry userId d (publicUser u)). split; [|reflexivity].
    apply (Permutation_in _ (Permutation_sym Hp)). apply in_map.
    apply In_chatUsers. exists u, m. repeat split; auto.
    now apply chats_with_spec.
Qed.

Lemma getUserChatList_sorted_and_complete_witness :
  exists e, In e (getUserChatList "a" sample_chat_db)
            /\ ChatListEntry.user e = publicUser (sample_user "c" "carol" (Some false)).
Proof.
  destruct (getUserChatList_sorted_and_complete "a" sample_chat_db)
    as (_ & _ & Hall).
  apply (Hall (sample_user "c" "carol" (Some false))
           (row "3" "a" "c" (Some 5) None)).
  - simpl. auto.
  - simpl. auto.
  - discriminate.
  - reflexivity.
Defined.

(** ** More on the close handler *)

Lemma bound_as_delete ws k m :
  bound_as ws (map_delete k m)
  = List.filter (fun k' => negb (String.eqb k' k)) (bound_as ws m).
Proof.
  unfold bound_as, map_delete. induction m as [|[k0 v0] m IH]; simpl; auto.
  destruct (String.eqb k0 k) eqn:Ek, (Nat.eqb v0 ws) eqn:Ev; simpl;
    rewrite ?Ek, ?Ev; simpl; now rewrite IH.
Qed.

Lemma bound_as_NoDup ws m : registry_wf m -> List.NoDup (bound_as ws m).
Proof.
  unfold registry_wf, bound_as. induction m as [|[k0 v0] m IH]; simpl.
  - constructor.
  - intros [Hk Hm]%NoDup_cons_iff. destruct (Nat.eqb v0 ws); simpl; auto.
    constructor; auto. intros Hin. apply Hk.
    apply in_map_iff in Hin as ([k v] & <- & Hin).
    apply filter_In in Hin as [Hin _]. now apply (in_map fst) in Hin.
Qed.

Lemma filter_neq_fresh k (l : list string) :
  ~ In k l -> List.filter (fun k' => negb (String.eqb k' k)) l = l.
Proof.
  induction l as [|k0 l IH]; simpl; auto. intros H.
  destruct (String.eqb_spec k0 k) as [->|_]; simpl.
  - exfalso. apply H. now left.
  - rewrite IH; auto.
Qed.

(** X9. The close handler stops at the first identity bound to the
    closing socket ([break]). When the socket is bound under several
    identities (it sent auth handshakes for each), only the first in Map
    order is unbound, written offline and announced; the others stay bound
    to the closed socket, and no store write or broadcast is made for
    them. *)
Theorem close_unbinds_only_the_first_identity w ws s userId others :
  registry_wf (connectedUsers s) ->
  bound_as ws (connectedUsers s) = userId :: others ->
  store_up w = true ->
  exists s' t,
    step w (Close ws) s = (s', t)
    /\ bound_as ws (connectedUsers s') = others
    /\ map_get userId (connectedUsers s') = None
    /\ (forall k, In k others -> map_get k (connectedUsers s') = Some ws)
    /\ store_calls t = [(UpdateUserOnlineStatus userId false, true)]
    /\ broadcasts t = [user_offline userId]
    /\ db s' = updateUserOnlineStatus w userId false (db s).
Proof.
  intros Hwf Hb Hup. rewrite step_close, Hb. cbv zeta. rewrite Hup.
  do 2 eexists. split; [reflexivity|]. cbn [connectedUsers db].
  pose proof (bound_as_NoDup ws _ Hwf) as Hnd. rewrite Hb in Hnd.
  apply NoDup_cons_iff in Hnd as [Hfresh _].
  split; [|split; [apply map_get_delete_eq|split; [|auto]]].
  - rewrite bound_as_delete, Hb. simpl. rewrite String.eqb_refl. simpl.
    now apply filter_neq_fresh.
  - intros k Hk. rewrite map_get_delete_ne by (intros ->; contradiction).
    assert (Hin : In (k, ws) (connectedUsers s)).
    { apply bound_as_In. rewrite Hb. now right. }
    clear - Hwf Hin. unfold registry_wf in Hwf.
    induction (connectedUsers s) as [|[k0 v0] m IH]; [destruct Hin|].
    simpl in *. apply NoDup_cons_iff in Hwf as [Hk0 Hwf].
    destruct Hin as [[= -> ->]|Hin].
    + now rewrite String.eqb_refl.
    + destruct (String.eqb_spec k0 k) as [->|_]; auto.
      exfalso. apply Hk0. now apply (in_map fst) in Hin.
Qed.

Lemma close_unbinds_only_the_first_identity_witness :
  let s := fst (steps [(world_up 1 "", Message 1%nat (auth "alice"));
                       (world_up 2 "", Message 1%nat (auth "alex"))] server0) in
  connectedUsers (fst (step (world_up 3 "") (Close 1%nat) s))
  = [("alex", 1%nat)]
  /\ broadcasts (snd (step (world_up 3 "") (Close 1%nat) s))
     = [user_offline "alice"].
Proof.
  intros s. split; [reflexivity|].
  assert (Hwf : registry_wf (connectedUsers s)).
  { repeat constructor; simpl; intuition discriminate. }
  destruct (close_unbinds_only_the_first_identity (world_up 3 "") 1%nat s
              "alice" ["alex"] Hwf eq_refl eq_refl)
    as (s' & t & Hstep & _ & _ & _ & _ & Hb & _).
  now rewrite Hstep.
Defined.

(** X10. Closing is idempotent for a socket bound under at most one
    identity: once its close has been handled (whether or not the offline
    write succeeded), handling a close of the same socket again changes
    nothing, calls the store for nothing and broadcasts nothing. *)
Theorem close_twice_has_no_further_effect w1 w2 ws s :
  registry_wf (connectedUsers s) ->
  (length (bound_as ws (connectedUsers s)) <= 1)%nat ->
  step w2 (Close ws) (fst (step w1 (Close ws) s))
  = (fst (step w1 (Close ws) s), []).
Proof.
  intros Hwf Hlen.
  assert (Hfree : bound_as ws (connectedUsers (fst (step w1 (Close ws) s))) = []).
  { rewrite step_close.
    destruct (bound_as ws (connectedUsers s)) as [|userId others] eqn:Hb.
    - exact Hb.
    - destruct others; [|simpl in Hlen; lia].
      pose proof (bound_as_NoDup ws _ Hwf) as Hnd. rewrite Hb in Hnd.
      cbv zeta.
      assert (H : bound_as ws (map_delete userId (connectedUsers s)) = []).
      { rewrite bound_as_delete, Hb. simpl. now rewrite String.eqb_refl. }
      now destruct (store_up w1). }
  rewrite (step_close w2). now rewrite Hfree.
Qed.

Lemma close_twice_has_no_further_effect_witness :
  let s := fst (step (world_up 1 "") (Message 1%nat (auth "alice")) server0) in
  step (world_up 3 "") (Close 1%nat)
    (fst (step (world_down 2) (Close 1%nat) s))
  = (fst (step (world_down 2) (Close 1%nat) s), []).
Proof.
  intros s.
  apply (close_twice_has_no_further_effect (world_down 2) (world_up 3 "")
           1%nat s).
  - repeat constructor; simpl; intuition.
  - apply Nat.leb_le. reflexivity.
Defined.

(** X11. When the offline write of the close handler fails, the binding
    is already gone but nothing else happens: the users table keeps the
    row as it was (still online if it was), no [user_offline] is broadcast,
    and the rejection is unhandled (the close handler has no [catch]). *)
Theorem close_with_failed_write_leaves_user_online w ws s userId others :
  bound_as ws (connectedUsers s) = userId :: others ->
  store_up w = false ->
  exists s' t,
    step w (Close ws) s = (s', t)
    /\ map_get userId (connectedUsers s') = None
    /\ db s' = db s
    /\ getOnlineUsers (db s') = getOnlineUsers (db s)
    /\ broadcasts t = [] /\ deliveries t = []
    /\ In UnhandledRejection t.
Proof.
  intros Hb Hup. rewrite step_close, Hb. cbv zeta. rewrite Hup.
  do 2 eexists. split; [reflexivity|]. cbn [connectedUsers db].
  split; [apply map_get_delete_eq|]. simpl. auto 10.
Qed.

Lemma close_with_failed_write_leaves_user_online_witness :
  let s := {| connectedUsers := [("a", 1%nat)]; db := sample_chat_db |} in
  map PublicUser.id
    (getOnlineUsers (db (fst (step (world_down 2) (Close 1%nat) s))))
  = ["a"]
  /\ connectedUsers (fst (step (world_down 2) (Close 1%nat) s)) = [].
Proof.
  intros s.
  destruct (close_with_failed_write_leaves_user_online (world_down 2) 1%nat s
              "a" [] eq_refl eq_refl)
    as (s' & t & Hstep & _ & _ & Hon & _).
  rewrite Hstep. cbn [fst]. rewrite Hon. split; [reflexivity|].
  injection Hstep as <- _. reflexivity.
Defined.

(** ** Heartbeats and fan-out *)

(** X12. An [update_last_seen] heartbeat is taken at its word: whichever
    socket sends it, bound or not, for a non-empty [userId] the store marks
    that user online with a fresh [lastSeen] and a [user_status_update]
    with [isOnline: true] is broadcast, while the registry is left
    untouched. So a user who is bound to no socket is reported online
    after a heartbeat that names it. *)
Theorem update_last_seen_marks_online_without_binding w ws s m userId :
  type_is "update_last_seen" m = true ->
  msg_userId m = Some userId ->
  userId <> "" ->
  store_up w = true ->
  exists s' t,
    step w (Message ws (Parsed m)) s = (s', t)
    /\ connectedUsers s' = connectedUsers s
    /\ getUser userId (db s')
       = option_map (set_online true (now w)) (getUser userId (db s))
    /\ (forall u, In u (users (db s)) -> User.id u = userId ->
                  In (publicUser (set_online true (now w) u))
                     (getOnlineUsers (db s')))
    /\ store_calls t = [(UpdateUserOnlineStatus userId true, true)]
    /\ t = [Store (UpdateUserOnlineStatus userId true) true;
            Broadcast (user_status_update userId (now w) true)
              (open_sockets w (connectedUsers s))].
Proof.
  intros Ht Hu Hne Hup.
  assert (Htr : truthy (msg_userId m) = Some userId)
    by (rewrite Hu; now apply truthy_Some).
  rewrite (step_last_seen _ _ _ _ _ Ht Htr), Hup.
  do 2 eexists. split; [reflexivity|]. cbn [connectedUsers db].
  split; [reflexivity|]. split.
  { rewrite getUser_after_update. now rewrite String.eqb_refl. }
  split; [|auto].
  intros u Hin Hid. now apply listed_after_online_write.
Qed.

Lemma update_last_seen_marks_online_without_binding_witness :
  let s := {| connectedUsers := []; db := sample_chat_db |} in
  let m := {| msg_type := Some (JStr "update_last_seen");
              msg_userId := Some "c"; msg_data := None; msg_senderId := None;
              msg_receiverId := None; msg_isTyping := None |} in
  map PublicUser.id
    (getOnlineUsers (db (fst (step (world_up 9 "") (Message 7%nat (Parsed m)) s))))
  = ["a"; "c"]
  /\ connectedUsers (fst (step (world_up 9 "") (Message 7%nat (Parsed m)) s))
     = [].
Proof.
  intros s m.
  destruct (update_last_seen_marks_online_without_binding (world_up 9 "")
              7%nat s m "c" eq_refl eq_refl ltac:(discriminate) eq_refl)
    as (s' & t & Hstep & Hreg & _).
  rewrite Hstep. cbn [fst]. rewrite Hreg. split; [|reflexivity].
  injection Hstep as <- _. reflexivity.
Defined.

Lemma count_occ_open_sockets w ws m :
  count_occ Nat.eq_dec (open_sockets w m) ws
  = if is_open w ws then length (bound_as ws m) else 0%nat.
Proof.
  unfold open_sockets, bound_as. induction m as [|[k v] m IH]; simpl.
  - now destruct (is_open w ws).
  - destruct (Nat.eqb_spec v ws) as [->|Hne]; simpl.
    + destruct (is_open w ws) eqn:Eo; simpl; [|exact IH].
      destruct (Nat.eq_dec ws ws); [|contradiction]. now rewrite IH.
    + destruct (is_open w v); simpl; [|exact IH].
      destruct (Nat.eq_dec v ws); [contradiction|exact IH].
Qed.

(** X13. [broadcastToAll] sends to a socket once for every identity the
    socket is bound under, if its transport is open, and not at all
    otherwise; it changes no state and never fails. *)
Theorem broadcastToAll_fan_out w ev s :
  exists to,
    broadcastToAll w ev s = (Returned tt, s, [Broadcast ev to])
    /\ forall ws,
         count_occ Nat.eq_dec to ws
         = if is_open w ws then length (bound_as ws (connectedUsers s))
           else 0%nat.
Proof.
  eexists. split; [reflexivity|]. intros ws. apply count_occ_open_sockets.
Qed.

(** ** What a run can and cannot do to the database *)

Lemma z_messageType_values v t :
  z_messageType v = Some t -> t = "text" \/ t = "image".
Proof.
  unfold z_messageType. destruct v as [[]|]; try discriminate.
  - destruct (String.eqb_spec s "text") as [->|_]; simpl.
    + intros [= <-]. auto.
    + destruct (String.eqb_spec s "image") as [->|_]; [|discriminate].
      intros [= <-]. auto.
  - intros [= <-]. auto.
Qed.

Lemma step_database w i s :
  exists added,
    messages (db (fst (step w i s))) = messages (db s) ++ added
    /\ Forall (fun row =>
                 Message.isRead row = Some false
                 /\ Message.createdAt row = Some (now w)
                 /\ (1 <= String.length (Message.content row) <= 1000)%nat
                 /\ (Message.messageType row = Some "text"
                     \/ Message.messageType row = Some "image")) added
    /\ map User.id (users (db (fst (step w i s)))) = map User.id (users (db s))
    /\ map User.password (users (db (fst (step w i s))))
       = map User.password (users (db s)).
Proof.
  assert (Hsame : forall s', db s' = db s ->
            exists added,
              messages (db s') = messages (db s) ++ added
              /\ Forall (fun row =>
                 Message.isRead row = Some false
                 /\ Message.createdAt row = Some (now w)
                 /\ (1 <= String.length (Message.content row) <= 1000)%nat
                 /\ (Message.messageType row = Some "text"
                     \/ Message.messageType row = Some "image")) added
              /\ map User.id (users (db s')) = map User.id (users (db s))
              /\ map User.password (users (db s'))
                 = map User.password (users (db s))).
  { intros s' ->. exists []. rewrite app_nil_r. auto. }
  assert (Hpresence : forall s' id b,
            db s' = updateUserOnlineStatus w id b (db s) ->
            exists added,
              messages (db s') = messages (db s) ++ added
              /\ Forall (fun row =>
                 Message.isRead row = Some false
                 /\ Message.createdAt row = Some (now w)
                 /\ (1 <= String.length (Message.content row) <= 1000)%nat
                 /\ (Message.messageType row = Some "text"
                     \/ Message.messageType row = Some "image")) added
              /\ map User.id (users (db s')) = map User.id (users (db s))
              /\ map User.password (users (db s'))
                 = map User.password (users (db s))).
  { intros s' id b ->. exists [].
    destruct (updateUserOnlineStatus_columns w id b (db s))
      as (Hid & _ & Hpw & Hmsg).
    rewrite app_nil_r. auto. }
  destruct i as [ws [|m]|ws].
  - rewrite step_unparseable. now apply Hsame.
  - destruct (type_is "auth" m) eqn:Hauth.
    { destruct (truthy (msg_userId m)) as [userId|] eqn:Hu.
      - rewrite (step_auth _ _ _ _ _ Hauth Hu). cbv zeta.
        destruct (store_up w); [eapply Hpresence|apply Hsame]; reflexivity.
      - rewrite (step_auth_falsy _ _ _ _ Hauth Hu). now apply Hsame. }
    destruct (type_is "chat_message" m) eqn:Hchat.
    { destruct (messageSchema_parse (msg_data m)) as [data|issues] eqn:Hp.
      - destruct (store_up w) eqn:Hup.
        + rewrite (step_chat_stored _ _ _ _ _ Hchat Hp Hup).
          exists [new_row w data]. cbn [fst db messages users].
          repeat split; auto. constructor; [|constructor].
          destruct (msg_data m) as [j|]; [|discriminate].
          apply messageSchema_parse_Valid in Hp as (_ & _ & Hc & Ht & _).
          apply z_content_Some in Hc as [_ Hc].
          apply z_messageType_values in Ht. simpl.
          repeat split; try lia. destruct Ht as [-> | ->]; auto.
        + rewrite (step_chat_store_down _ _ _ _ _ Hchat Hp Hup).
          now apply Hsame.
      - rewrite (step_chat_invalid _ _ _ _ _ Hchat Hp). now apply Hsame. }
    destruct (type_is "update_last_seen" m) eqn:Hseen.
    { destruct (truthy (msg_userId m)) as [userId|] eqn:Hu.
      - rewrite (step_last_seen _ _ _ _ _ Hseen Hu).
        destruct (store_up w); [eapply Hpresence|apply Hsame]; reflexivity.
      - rewrite (step_last_seen_falsy _ _ _ _ Hseen Hu). now apply Hsame. }
    destruct (type_is "typing" m) eqn:Htyping.
    { rewrite (step_typing _ _ _ _ Htyping). now apply Hsame. }
    rewrite (step_unknown _ _ _ _ Hauth Hchat Hseen Htyping). now apply Hsame.
  - rewrite step_close.
    destruct (bound_as ws (connectedUsers s)) as [|userId ?];
      [now apply Hsame|].
    cbv zeta.
    destruct (store_up w); [eapply Hpresence|apply Hsame]; reflexivity.
Qed.

(** X14. Whatever arrives on the sockets, in any order and whatever the
    store does, the WebSocket handlers only ever append to the messages
    table, and every row they append is unread, has a creation time, a
    content of 1 to 1000 characters and the type [text] or [image]; they
    never add, remove or re-identify a user and never touch a password. *)
Theorem websocket_runs_only_append_valid_messages inputs :
  forall s,
  exists added,
    messages (db (fst (steps inputs s))) = messages (db s) ++ added
    /\ Forall (fun row =>
                 Message.isRead row = Some false
                 /\ Message.createdAt row <> None
                 /\ (1 <= String.length (Message.content row) <= 1000)%nat
                 /\ (Message.messageType row = Some "text"
                     \/ Message.messageType row = Some "image")) added
    /\ map User.id (users (db (fst (steps inputs s))))
       = map User.id (users (db s))
    /\ map User.password (users (db (fst (steps inputs s))))
       = map User.password (users (db s)).
Proof.
  induction inputs as [|[w i] inputs IH]; intros s.
  - exists []. simpl. rewrite app_nil_r. auto.
  - cbn [steps].
    destruct (step_database w i s) as (added1 & Hm1 & Hrows1 & Hid1 & Hpw1).
    destruct (step w i s) as [s1 t1]. cbn [fst] in *.
    destruct (IH s1) as (added2 & Hm2 & Hrows2 & Hid2 & Hpw2).
    destruct (steps inputs s1) as [s2 t2]. cbn [fst] in *.
    exists (added1 ++ added2).
    rewrite Hm2, Hm1, Hid2, Hid1, Hpw2, Hpw1, app_assoc.
    repeat split; auto. apply Forall_app. split; auto.
    eapply Forall_impl; [exact Hrows1|]. simpl.
    intros row (? & -> & ? & ?).
    repeat split; auto; try lia; try discriminate.
Qed.

(** ** Who is bound, and who receives *)

Lemma truthy_eq userId k : truthy userId = Some k -> userId = Some k /\ k <> "".
Proof.
  unfold truthy. destruct userId as [u|]; [|discriminate].
  destruct (String.eqb_spec u ""); [discriminate|]. intros [= <-]. auto.
Qed.

Lemma step_binding w i s k ws :
  In (k, ws) (connectedUsers (fst (step w i s))) ->
  In (k, ws) (connectedUsers s)
  \/ exists m, i = Message ws (Parsed m) /\ type_is "auth" m = true
               /\ msg_userId m = Some k /\ k <> "".
Proof.
  destruct i as [ws' data|ws'].
  - destruct (frame_type_is "auth" data) eqn:Hauth.
    + destruct data as [|m]; [discriminate|]. cbn [frame_type_is] in Hauth.
      destruct (truthy (msg_userId m)) as [userId|] eqn:Hu.
      * rewrite (step_auth _ _ _ _ _ Hauth Hu). cbv zeta. intros Hin.
        assert (Hin' : In (k, ws) (map_set userId ws' (connectedUsers s)))
          by (destruct (store_up w); exact Hin).
        apply In_map_set in Hin' as [[-> ->]|Hin']; auto.
        right. exists m. apply truthy_eq in Hu as [Hu Hne]. auto.
      * rewrite (step_auth_falsy _ _ _ _ Hauth Hu). auto.
    + destruct (step_non_auth w ws' s data Hauth)
        as (s' & t & -> & Hreg & _). cbn [fst]. rewrite Hreg. auto.
  - rewrite step_close.
    destruct (bound_as ws' (connectedUsers s)) as [|userId ?]; auto.
    cbv zeta. intros Hin.
    assert (Hin' : In (k, ws) (map_delete userId (connectedUsers s)))
      by (destruct (store_up w); exact Hin).
    apply filter_In in Hin' as [Hin' _]. auto.
Qed.

(** X15. A binding in [connectedUsers] can only come from an auth
    handshake: after any run, an identity is bound to a socket only if it
    was so bound at the start or that socket itself sent an auth handshake
    naming the (non-empty) identity. No other message, no close and no
    other socket's traffic binds a socket. *)
Theorem bindings_come_from_handshakes inputs :
  forall s k ws,
    In (k, ws) (connectedUsers (fst (steps inputs s))) ->
    In (k, ws) (connectedUsers s)
    \/ exists w m, In (w, Message ws (Parsed m)) inputs
                   /\ type_is "auth" m = true
                   /\ msg_userId m = Some k /\ k <> "".
Proof.
  induction inputs as [|[w i] inputs IH]; intros s k ws; [now left|].
  cbn [steps]. pose proof (step_binding w i s k ws) as Hstep.
  destruct (step w i s) as [s1 t1]. cbn [fst] in Hstep.
  pose proof (IH s1 k ws) as Hrest.
  destruct (steps inputs s1) as [s2 t2]. cbn [fst] in *.
  intros Hin. destruct (Hrest Hin) as [H1|(w' & m & Hm & Hrem)].
  - destruct (Hstep H1) as [H0|(m & -> & Hrem)]; auto.
    right. exists w, m. split; [now left|exact Hrem].
  - right. exists w', m. split; [now right|exact Hrem].
Qed.

Lemma bindings_come_from_handshakes_witness :
  let inputs := [(world_up 1 "", Message 1%nat (auth "alice"));
                 (world_up 2 "", Message 2%nat (chat_message (chat_payload "bob" "alice" "hi")))] in
  In ("alice", 1%nat) (connectedUsers (fst (steps inputs server0)))
  /\ exists w m, In (w, Message 1%nat (Parsed m)) inputs
                 /\ msg_userId m = Some "alice".
Proof.
  intros inputs.
  assert (Hin : In ("alice", 1%nat) (connectedUsers (fst (steps inputs server0))))
    by (vm_compute; now left).
  split; [exact Hin|].
  destruct (bindings_come_from_handshakes inputs server0 "alice" 1%nat Hin)
    as [[]|(w & m & Hm & _ & Hu & _)].
  exists w, m. auto.
Defined.

(** X16. The auth handshake is not checked against anything: whichever
    socket sends it last for an identity becomes the socket of that
    identity, whoever was bound before. A valid [chat_message] to the
    identity is then pushed as [new_message] to that socket, when it is
    open and the store accepts the insert, and in no case to any other
    socket. *)
Theorem last_handshake_receives_the_messages
    w1 w2 c ws s handshake userId m messageData :
  type_is "auth" handshake = true ->
  msg_userId handshake = Some userId ->
  userId <> "" ->
  type_is "chat_message" m = true ->
  messageSchema_parse (msg_data m) = Valid messageData ->
  InsertMessage.receiverId messageData = userId ->
  let s1 := fst (step w1 (Message c (Parsed handshake)) s) in
  deliveries_of is_new_message (snd (step w2 (Message ws (Parsed m)) s1))
  = if store_up w2 && is_open w2 c
    then [(c, new_message (new_row w2 messageData))] else [].
Proof.
  intros Hauth Hu Hne Hchat Hp Hr s1.
  assert (Hbound : map_get userId (connectedUsers s1) = Some c).
  { subst s1.
    assert (Htr : truthy (msg_userId handshake) = Some userId)
      by (rewrite Hu; now apply truthy_Some).
    rewrite (step_auth _ _ _ _ _ Hauth Htr). cbv zeta.
    destruct (store_up w1); apply map_get_set_eq. }
  destruct (store_up w2) eqn:Hup.
  - rewrite (step_chat_stored _ _ _ _ _ Hchat Hp Hup).
    unfold deliveries_of, to_recipient, to_sender. cbn [snd].
    rewrite Hr, Hbound.
    destruct (is_open w2 c), (is_open w2 ws); reflexivity.
  - now rewrite (step_chat_store_down _ _ _ _ _ Hchat Hp Hup).
Qed.

Lemma last_handshake_receives_the_messages_witness :
  let s := {| connectedUsers := [("bob", 2%nat)]; db := db server0 |} in
  let s1 := fst (step (world_up 1 "") (Message 9%nat (auth "bob")) s) in
  deliveries_of is_new_message
    (snd (step (world_up 5 "m1")
            (Message 1%nat (chat_message (chat_payload "alice" "bob" "hi")))
            s1))
  = [(9%nat, new_message
               (new_row (world_up 5 "m1")
                  {| InsertMessage.senderId := "alice";
                     InsertMessage.receiverId := "bob";
                     InsertMessage.content := "hi";
                     InsertMessage.messageType := "text";
                     InsertMessage.imageUrl := None |}))].
Proof.
  intros s s1.
  apply (last_handshake_receives_the_messages (world_up 1 "")
           (world_up 5 "m1") 9%nat 1%nat s
           {| msg_type := Some (JStr "auth"); msg_userId := Some "bob";
              msg_data := None; msg_senderId := None;
              msg_receiverId := None; msg_isTyping := None |}
           "bob"
           {| msg_type := Some (JStr "chat_message"); msg_userId := None;
              msg_data := Some (chat_payload "alice" "bob" "hi");
              msg_senderId := None; msg_receiverId := None;
              msg_isTyping := None |}
           {| InsertMessage.senderId := "alice";
              InsertMessage.receiverId := "bob";
              InsertMessage.content := "hi";
              InsertMessage.messageType := "text";
              InsertMessage.imageUrl := None |}
           eq_refl eq_refl ltac:(discriminate) eq_refl eq_refl eq_refl).
Defined.

Lemma stored_row_is_fetched w message d limit :
  (length (List.filter (between (InsertMessage.senderId message)
                          (InsertMessage.receiverId message)) (messages d))
   < match limit with Some n => n | None => 50%nat end)%nat ->
  In (new_row w message)
     (getMessagesBetweenUsers (InsertMessage.senderId message)
        (InsertMessage.receiverId message) limit
        (fst (createMessage w message d))).
Proof.
  intros Hlen. unfold getMessagesBetweenUsers.
  rewrite conversation_after_createMessage.
  assert (Hb : between (InsertMessage.senderId message)
                 (InsertMessage.receiverId message) (new_row w message) = true).
  { apply between_spec. left. auto. }
  rewrite Hb.
  match goal with |- In _ (firstn _ (orderBy_createdAt_asc ?l)) =>
    assert (Hperm : Permutation (orderBy_createdAt_asc l) l)
      by apply merge_sort_Permutation
  end.
  rewrite firstn_all2.
  - apply (Permutation_in _ (Permutation_sym Hperm)).
    apply in_or_app. right. now left.
  - rewrite (Permutation_length Hperm), List.length_app. simpl. lia.
Qed.

(** X17. A message to a user whose socket has been closed is not
    pushed: after the close of the receiver's (only) socket, a valid
    [chat_message] to that user sends no [new_message] to anyone, whatever
    the store does. When the store accepts the insert, the message is
    still confirmed to the sender with [message_sent], and the stored row is
    returned by [getMessagesBetweenUsers] for the two users as long as
    their conversation was below the limit. When the store refuses the
    insert, nothing is stored and nothing is sent. *)
Theorem message_to_closed_receiver_is_stored_not_pushed
    w1 w2 closing ws s m messageData limit :
  bound_as closing (connectedUsers s)
  = [InsertMessage.receiverId messageData] ->
  type_is "chat_message" m = true ->
  messageSchema_parse (msg_data m) = Valid messageData ->
  let s1 := fst (step w1 (Close closing) s) in
  let r := step w2 (Message ws (Parsed m)) s1 in
  deliveries_of is_new_message (snd r) = []
  /\ (store_up w2 = true ->
      deliveries_of is_message_sent (snd r)
      = (if is_open w2 ws
         then [(ws, message_sent (new_row w2 messageData))] else [])
      /\ messages (db (fst r)) = messages (db s) ++ [new_row w2 messageData]
      /\ ((length (List.filter (between (InsertMessage.senderId messageData)
                                  (InsertMessage.receiverId messageData))
                     (messages (db s)))
           < match limit with Some n => n | None => 50%nat end)%nat ->
          In (new_row w2 messageData)
             (getMessagesBetweenUsers (InsertMessage.senderId messageData)
                (InsertMessage.receiverId messageData) limit (db (fst r)))))
  /\ (store_up w2 = false ->
      messages (db (fst r)) = messages (db s) /\ deliveries (snd r) = []).
Proof.
  intros Hb Hchat Hp s1 r.
  assert (Hs1 : map_get (InsertMessage.receiverId messageData)
                  (connectedUsers s1) = None
                /\ messages (db s1) = messages (db s)).
  { subst s1. rewrite step_close, Hb. cbv zeta.
    destruct (store_up w1); cbn [fst connectedUsers db];
      (split; [apply map_get_delete_eq|reflexivity]). }
  destruct Hs1 as [Hunbound Hmsgs]. subst r.
  destruct (store_up w2) eqn:Hup.
  - rewrite (step_chat_stored _ _ _ _ _ Hchat Hp Hup).
    unfold deliveries_of, to_recipient, to_sender. cbn [fst snd db].
    rewrite Hunbound. split; [now destruct (is_open w2 ws)|].
    split; [|discriminate]. intros _.
    split; [now destruct (is_open w2 ws)|].
    split; [cbn [messages]; now rewrite Hmsgs|].
    intros Hlen. rewrite <- Hmsgs in Hlen.
    apply (stored_row_is_fetched w2 messageData (db s1) limit Hlen).
  - rewrite (step_chat_store_down _ _ _ _ _ Hchat Hp Hup). cbn [fst snd].
    split; [reflexivity|]. split; [discriminate|]. auto.
Qed.

Lemma message_to_closed_receiver_is_stored_not_pushed_witness :
  let s := {| connectedUsers := [("alice", 1%nat); ("bob", 2%nat)];
              db := db server0 |} in
  let s1 := fst (step (world_up 1 "") (Close 2%nat) s) in
  let r := step (world_up 5 "m1")
             (Message 1%nat (chat_message (chat_payload "alice" "bob" "hi")))
             s1 in
  deliveries (snd r)
  = [(1%nat, message_sent
               (new_row (world_up 5 "m1")
                  {| InsertMessage.senderId := "alice";
                     InsertMessage.receiverId := "bob";
                     InsertMessage.content := "hi";
                     InsertMessage.messageType := "text";
                     InsertMessage.imageUrl := None |}))]
  /\ deliveries_of is_new_message (snd r) = []
  /\ In (new_row (world_up 5 "m1")
           {| InsertMessage.senderId := "alice";
              InsertMessage.receiverId := "bob";
              InsertMessage.content := "hi";
              InsertMessage.messageType := "text";
              InsertMessage.imageUrl := None |})
        (getMessagesBetweenUsers "alice" "bob" None (db (fst r))).
Proof.
  intros s s1 r. split; [reflexivity|].
  destruct (message_to_closed_receiver_is_stored_not_pushed (world_up 1 "")
              (world_up 5 "m1") 2%nat 1%nat s
              {| msg_type := Some (JStr "chat_message"); msg_userId := None;
                 msg_data := Some (chat_payload "alice" "bob" "hi");
                 msg_senderId := None; msg_receiverId := None;
                 msg_isTyping := None |}
              {| InsertMessage.senderId := "alice";
                 InsertMessage.receiverId := "bob";
                 InsertMessage.content := "hi";
                 InsertMessage.messageType := "text";
                 InsertMessage.imageUrl := None |}
              None eq_refl eq_refl eq_refl)
    as (Hnone & Hup & _).
  split; [exact Hnone|].
  destruct (Hup eq_refl) as (_ & _ & Hfetch).
  apply Hfetch. apply Nat.ltb_lt. reflexivity.
Defined.

(** ** Typing, in order *)

(** X18. Typing events are relayed in the order they arrive: when a
    socket sends a series of [typing] events to a receiver whose socket is
    open throughout, the receiver's socket is sent exactly these events,
    one for one and in the same order, and the server state is unchanged;
    when the receiver is bound to no socket, nothing at all is sent. *)
Theorem typing_events_are_relayed_in_order ws s receiverId hs :
  Forall (fun h => type_is "typing" (snd h) = true
                   /\ msg_receiverId (snd h) = Some receiverId) hs ->
  (forall r, map_get receiverId (connectedUsers s) = Some r ->
             Forall (fun h => is_open (fst h) r = true) hs ->
             steps (arriving ws hs) s
             = (s, map (fun h => Send r (typing (msg_senderId (snd h))
                                           (msg_isTyping (snd h)))) hs))
  /\ (map_get receiverId (connectedUsers s) = None ->
      steps (arriving ws hs) s = (s, [])).
Proof.
  induction 1 as [|[w m] hs [Ht Hr] _ [IHsome IHnone]].
  - split; reflexivity.
  - simpl in Ht, Hr. split.
    + intros r Hbound Hopen. apply Forall_cons_iff in Hopen as [Ho Hopen].
      cbn [arriving map steps fst snd]. rewrite (step_typing _ _ _ _ Ht).
      unfold lookup_receiver. rewrite Hr, Hbound. simpl in Ho. rewrite Ho.
      fold (arriving ws hs). now rewrite (IHsome r Hbound Hopen).
    + intros Hunbound.
      cbn [arriving map steps fst snd]. rewrite (step_typing _ _ _ _ Ht).
      unfold lookup_receiver. rewrite Hr, Hunbound.
      fold (arriving ws hs). now rewrite (IHnone Hunbound).
Qed.

Lemma typing_events_are_relayed_in_order_witness :
  let s := {| connectedUsers := [("bob", 2%nat)]; db := db server0 |} in
  let typing_to_bob b :=
    {| msg_type := Some (JStr "typing"); msg_userId := None;
       msg_data := None; msg_senderId := Some (JStr "alice");
       msg_receiverId := Some "bob"; msg_isTyping := Some (JBool b) |} in
  steps (arriving 1%nat [(world_up 1 "", typing_to_bob true);
                         (world_up 2 "", typing_to_bob false)]) s
  = (s, [Send 2%nat (typing (Some (JStr "alice")) (Some (JBool true)));
         Send 2%nat (typing (Some (JStr "alice")) (Some (JBool false)))]).
Proof.
  intros s typing_to_bob.
  destruct (typing_events_are_relayed_in_order 1%nat s "bob"
              [(world_up 1 "", typing_to_bob true);
               (world_up 2 "", typing_to_bob false)]) as [Hsome _].
  - repeat constructor.
  - apply (Hsome 2%nat); [reflexivity|repeat constructor].
Defined.

(** ** Reading a conversation marks it, and marking does not reorder *)

Section sort_of_relabelled_rows.
Context {A} (R : relation A) `{!RelDecision R} (f : A -> A).
Hypothesis f_order : forall x y, R (f x) (f y) <-> R x y.

Lemma list_merge_map l1 : forall l2,
  list_merge R (map f l1) (map f l2) = map f (list_merge R l1 l2).
Proof using f_order.
  induction l1 as [|x1 l1 IH1]; intros l2; [now destruct l2|].
  induction l2 as [|x2 l2 IH2]; [reflexivity|].
  cbn [map]. rewrite !list_merge_cons.
  destruct (decide (R (f x1) (f x2))) as [H|H],
    (decide (R x1 x2)) as [H'|H'];
    try (exfalso; pose proof (f_order x1 x2); tauto); cbn [map]; f_equal.
  - apply (IH1 (x2 :: l2)).
  - exact IH2.
Qed.

Lemma merge_list_to_stack_map st : forall l,
  merge_list_to_stack R (map (option_map (map f)) st) (map f l)
  = map (option_map (map f)) (merge_list_to_stack R st l).
Proof using f_order.
  induction st as [|[l'|] st IH]; intros l; simpl; auto.
  now rewrite list_merge_map, IH.
Qed.

Lemma merge_stack_map st :
  merge_stack R (map (option_map (map f)) st) = map f (merge_stack R st).
Proof using f_order.
  induction st as [|[l'|] st IH]; simpl; auto.
  now rewrite IH, list_merge_map.
Qed.

Lemma merge_sort_map l : merge_sort R (map f l) = map f (merge_sort R l).
Proof using f_order.
  unfold merge_sort.
  change (@nil (option (list A))) with (map (option_map (map f)) []) at 1.
  generalize (@nil (option (list A))) as st.
  induction l as [|x l IH]; intros st; simpl.
  - apply merge_stack_map.
  - change [f x] with (map f [x]). now rewrite merge_list_to_stack_map, IH.
Qed.
End sort_of_relabelled_rows.

Lemma filter_map_commute {A} (p : A -> bool) (f : A -> A) l :
  (forall x, p (f x) = p x) ->
  List.filter p (map f l) = map f (List.filter p l).
Proof.
  intros Hp. induction l as [|x l IH]; simpl; auto.
  rewrite Hp. destruct (p x); simpl; now rewrite IH.
Qed.

Lemma conversation_after_mark senderId receiverId a b limit d :
  getMessagesBetweenUsers a b limit (markMessagesAsRead senderId receiverId d)
  = map (fun m => if unread_from_to senderId receiverId m
                  then Message.set_isRead (Some true) m else m)
      (getMessagesBetweenUsers a b limit d).
Proof.
  unfold getMessagesBetweenUsers, markMessagesAsRead, orderBy_createdAt_asc.
  cbn [messages].
  rewrite filter_map_commute, merge_sort_map, firstn_map; auto.
  - intros x y. unfold created_le.
    now destruct (unread_from_to _ _ x), (unread_from_to _ _ y).
  - intros x. now destruct (unread_from_to _ _ x).
Qed.

Lemma markMessagesAsRead_idem senderId receiverId d :
  markMessagesAsRead senderId receiverId (markMessagesAsRead senderId receiverId d)
  = markMessagesAsRead senderId receiverId d.
Proof.
  unfold markMessagesAsRead. cbn [users messages]. f_equal.
  rewrite map_map. apply map_ext. intros m.
  rewrite mark_row_not_unread_from_to. reflexivity.
Qed.

(** X19. [markMessagesAsRead] does not disturb what
    [getMessagesBetweenUsers] returns, for any two users and any limit: the
    same rows come back in the same order, each as it was except that the
    rows from [senderId] to [receiverId] that were unread are now read. *)
Theorem markMessagesAsRead_keeps_conversations senderId receiverId a b limit d :
  getMessagesBetweenUsers a b limit (markMessagesAsRead senderId receiverId d)
  = map (fun m => if unread_from_to senderId receiverId m
                  then Message.set_isRead (Some true) m else m)
      (getMessagesBetweenUsers a b limit d).
Proof. apply conversation_after_mark. Qed.

(** ** HTTP routes *)

Ltac route_unfold :=
  unfold post_logout, get_auth_user, get_chat_messages, post_login,
    requireAuth, try_catch, bind, storage_query, storage_markMessagesAsRead,
    storage_updateUserOnlineStatus, connectedUsers_delete, console_error,
    emit, ret.

(** X20. The routes behind [requireAuth] do nothing for a request without
    a session user: logout, the current-user route and the conversation
    route answer 401 "Unauthorized", and change neither the registry nor
    the database nor the session. *)
Theorem protected_routes_require_a_session w up1 up2 session userId s :
  truthy session = None ->
  post_logout w session s
  = (Returned (res_json 401 (Json_message "Unauthorized") session), s, [])
  /\ get_auth_user up1 session s
     = (Returned (res_json 401 (Json_message "Unauthorized") session), s, [])
  /\ get_chat_messages up1 up2 session userId s
     = (Returned (res_json 401 (Json_message "Unauthorized") session), s, []).
Proof. intros H. route_unfold. rewrite H. auto. Qed.

Lemma protected_routes_require_a_session_witness :
  get_chat_messages true true None "b"
    {| connectedUsers := []; db := sample_chat_db |}
  = (Returned (res_json 401 (Json_message "Unauthorized") None),
     {| connectedUsers := []; db := sample_chat_db |}, []).
Proof.
  apply (protected_routes_require_a_session (world_up 1 "") true true None "b"
           {| connectedUsers := []; db := sample_chat_db |} eq_refl).
Defined.



(** X22. When the store write of logout fails, logout fails as a whole:
    the answer is 500 "Logout failed", and the binding, the database and
    the session are all as before. *)
Theorem logout_with_failed_write_changes_nothing w session id s :
  truthy session = Some id ->
  store_up w = false ->
  post_logout w session s
  = (Returned (res_json 500 (Json_message "Logout failed") session), s,
     [Store (UpdateUserOnlineStatus id false) false; ConsoleError]).
Proof. intros Hs Hup. route_unfold. now rewrite Hs, Hup. Qed.

Lemma logout_with_failed_write_changes_nothing_witness :
  let s := {| connectedUsers := [("a", 1%nat)]; db := sample_chat_db |} in
  post_logout (world_down 9) (Some "a") s
  = (Returned (res_json 500 (Json_message "Logout failed") (Some "a")), s,
     [Store (UpdateUserOnlineStatus "a" false) false; ConsoleError]).
Proof.
  intros s.
  apply (logout_with_failed_write_changes_nothing (world_down 9) (Some "a")
           "a" s eq_refl eq_refl).
Defined.

(** X23. Fetching a conversation marks it as read, after the fact: the
    response holds the conversation as it was stored (messages that were
    unread are still shown unread); afterwards no message from the other
    user to the caller is unread; and fetching again returns the same
    rows in the same order, now read, and changes nothing more. *)
Theorem fetching_a_conversation_marks_it_read session id userId s :
  truthy session = Some id ->
  let fetched := getMessagesBetweenUsers id userId None (db s) in
  let marked := {| connectedUsers := connectedUsers s;
                   db := markMessagesAsRead userId id (db s) |} in
  get_chat_messages true true session userId s
  = (Returned (res_json 200 (Json_messages fetched) session), marked, [])
  /\ List.filter (unread_from_to userId id) (messages (db marked)) = []
  /\ get_chat_messages true true session userId marked
     = (Returned
          (res_json 200
             (Json_messages
                (map (fun m => if unread_from_to userId id m
                               then Message.set_isRead (Some true) m else m)
                   fetched))
             session),
        marked, []).
Proof.
  intros Hs fetched marked. route_unfold. rewrite Hs. simpl.
  split; [reflexivity|]. split.
  - induction (messages (db s)) as [|m l IH]; simpl; auto.
    now rewrite mark_row_not_unread_from_to.
  - rewrite markMessagesAsRead_idem, conversation_after_mark. reflexivity.
Qed.

Lemma fetching_a_conversation_marks_it_read_witness :
  let s := {| connectedUsers := []; db := sample_db |} in
  exists fetched marked,
    get_chat_messages true true (Some "a") "b" s
    = (Returned (res_json 200 (Json_messages fetched) (Some "a")), marked, [])
    /\ map Message.isRead fetched = [Some false; None; Some false; Some true]
    /\ getUnreadMessageCount "a" (db marked) = 0%nat.
Proof.
  intros s.
  destruct (fetching_a_conversation_marks_it_read (Some "a") "a" "b" s eq_refl)
    as (Hfetch & _ & _).
  do 2 eexists. split; [exact Hfetch|]. split; reflexivity.
Defined.

(** X24. When either store call of the conversation route fails, the
    answer is 500 "Failed to get messages" and nothing is marked as read,
    also when the conversation had already been read from the store. *)
Theorem failed_fetch_marks_nothing up_read up_mark session id userId s :
  truthy session = Some id ->
  up_read && up_mark = false ->
  get_chat_messages up_read up_mark session userId s
  = (Returned (res_json 500 (Json_message "Failed to get messages") session),
     s, [ConsoleError]).
Proof.
  intros Hs Hup. route_unfold. rewrite Hs.
  destruct up_read, up_mark; try discriminate; reflexivity.
Qed.

Lemma failed_fetch_marks_nothing_witness :
  let s := {| connectedUsers := []; db := sample_db |} in
  get_chat_messages true false (Some "a") "b" s
  = (Returned (res_json 500 (Json_message "Failed to get messages") (Some "a")),
     s, [ConsoleError]).
Proof.
  intros s.
  apply (failed_fetch_marks_nothing true false (Some "a") "a" "b" s
           eq_refl eq_refl).
Defined.

(** ** Login *)

(** X25. A login with an unknown username and a login with a wrong
    password cannot be told apart: both are answered 401 "Invalid
    credentials", and neither touches the session, the registry or the
    database, calls the store for a write or logs anything. *)
Theorem login_failures_look_alike compare w session input username password s :
  loginSchema_parse input = inl (username, password) ->
  (forall u, getUserByUsername username (db s) = Some u ->
             compare password (User.password u) = false) ->
  post_login compare true w session input s
  = (Returned (res_json 401 (Json_message "Invalid credentials") session),
     s, []).
Proof.
  intros Hp Hbad. unfold post_login. rewrite Hp. route_unfold.
  destruct (getUserByUsername username (db s)) as [u|] eqn:Hu; [|reflexivity].
  now rewrite (Hbad u eq_refl).
Qed.

Lemma login_failures_look_alike_witness :
  let compare := fun p h : string => String.eqb p "secret1" in
  let s := {| connectedUsers := []; db := sample_chat_db |} in
  let credentials u p := Some (JObj [("username", JStr u); ("password", JStr p)]) in
  post_login compare true (world_up 1 "") None (credentials "nobody" "secret1") s
  = post_login compare true (world_up 1 "") None (credentials "alice" "wrong-password") s.
Proof.
  intros compare s credentials.
  rewrite (login_failures_look_alike compare (world_up 1 "") None
             (credentials "nobody" "secret1") "nobody" "secret1" s eq_refl).
  - rewrite (login_failures_look_alike compare (world_up 1 "") None
               (credentials "alice" "wrong-password") "alice" "wrong-password"
               s eq_refl); [reflexivity|].
    intros u _. reflexivity.
  - intros u Hu. discriminate Hu.
Defined.

(** X26. A login with the right password assigns [req.session.userId]
    before it writes presence. If the write succeeds the answer is 200 with
    the user as read BEFORE the write (without the password), and the user
    is online in the store. If the write fails the answer is 400 "Login
    failed" and the store is unchanged, yet the session already carries the
    user's id. Either way the registry is untouched and nothing is
    broadcast. *)
Theorem login_assigns_the_session_before_the_presence_write
    compare w session input username password u s :
  loginSchema_parse input = inl (username, password) ->
  getUserByUsername username (db s) = Some u ->
  compare password (User.password u) = true ->
  exists r s' t,
    post_login compare true w session input s = (Returned r, s', t)
    /\ session_userId r = Some (User.id u)
    /\ connectedUsers s' = connectedUsers s
    /\ broadcasts t = [] /\ deliveries t = []
    /\ (store_up w = true ->
        res r = {| res_status := 200; res_body := Json_user (publicUser u) |}
        /\ db s' = updateUserOnlineStatus w (User.id u) true (db s))
    /\ (store_up w = false ->
        res r = {| res_status := 400;
                   res_body := Json_message "Login failed" |}
        /\ db s' = db s).
Proof.
  intros Hp Hu Hok. unfold post_login. rewrite Hp. route_unfold.
  rewrite Hu, Hok. cbn -[updateUserOnlineStatus].
  destruct (store_up w); do 3 eexists; (split; [reflexivity|]);
    cbn -[updateUserOnlineStatus]; repeat split; auto; discriminate.
Qed.

Lemma login_assigns_the_session_before_the_presence_write_witness :
  let compare := fun p h : string => String.eqb p "secret1" in
  let s := {| connectedUsers := []; db := sample_chat_db |} in
  let input := Some (JObj [("username", JStr "bob"); ("password", JStr "secret1")]) in
  exists r s' t,
    post_login compare true (world_down 1) None input s = (Returned r, s', t)
    /\ session_userId r = Some "b"
    /\ res r = {| res_status := 400; res_body := Json_message "Login failed" |}.
Proof.
  intros compare s input.
  destruct (login_assigns_the_session_before_the_presence_write compare
              (world_down 1) None input "bob" "secret1"
              (sample_user "b" "bob" None) s eq_refl eq_refl eq_refl)
    as (r & s' & t & Hrun & Hsession & _ & _ & _ & _ & Hfail).
  exists r, s', t. repeat split; auto. now apply Hfail.
Defined.

Lemma z_string_min_Some n v s :
  z_string_min n v = Some s <->
  v = Some (JStr s) /\ (n <= String.length s)%nat.
Proof.
  unfold z_string_min, z_string. split.
  - destruct v as [[]|]; try discriminate.
    destruct (Nat.leb_spec n (String.length s0)); [|discriminate].
    intros [= ->]. auto.
  - intros [-> H]. apply Nat.leb_le in H. now rewrite H.
Qed.

(** X27. [loginSchema] lets a body through only if [username] is a string
    of at least 3 characters and [password] a string of at least 6; any
    other body is answered 400 "Validation error" with the offending
    fields, before any user is looked up: the store is not consulted and
    nothing changes. *)
Theorem login_validation compare up w session input s :
  (forall username password,
      loginSchema_parse input = inl (username, password) ->
      exists data,
        input = Some data
        /\ prop "username" data = Some (JStr username)
        /\ prop "password" data = Some (JStr password)
        /\ (3 <= String.length username)%nat
        /\ (6 <= String.length password)%nat)
  /\ (forall issues,
        loginSchema_parse input = inr issues ->
        post_login compare up w session input s
        = (Returned (res_json 400 (Json_errors "Validation error" issues)
                       session),
           s, [ConsoleError])).
Proof.
  split.
  - intros username password Hp. unfold loginSchema_parse in Hp.
    destruct input as [[| | | | |ms]|]; try discriminate.
    destruct (z_string_min 3 _) as [u|] eqn:Eu; [|destruct (z_string_min 6 _);
      discriminate].
    destruct (z_string_min 6 _) as [p|] eqn:Ep; [|discriminate].
    injection Hp as <- <-.
    apply z_string_min_Some in Eu as [Eu ?], Ep as [Ep ?].
    exists (JObj ms). auto.
  - intros issues Hp. unfold post_login. rewrite Hp. reflexivity.
Qed.

Lemma login_validation_witness :
  let compare := fun p h : string => String.eqb p "secret1" in
  let s := {| connectedUsers := []; db := sample_chat_db |} in
  let input := Some (JObj [("username", JStr "al"); ("password", JStr "secret1")]) in
  post_login compare true (world_up 1 "") None input s
  = (Returned (res_json 400 (Json_errors "Validation error" ["username"]) None),
     s, [ConsoleError]).
Proof.
  intros compare s input.
  destruct (login_validation compare true (world_up 1 "") None input s)
    as [_ Hinvalid].
  apply Hinvalid. reflexivity.
Defined.

(** ** What the message schema ignores *)

(** X28. [messageSchema] reads five properties of the payload and nothing
    else: two payloads that agree on [senderId], [receiverId], [content],
    [messageType] and [imageUrl] are parsed alike, so an [id], [isRead] or
    [createdAt] sent by a client has no effect. A missing [messageType]
    becomes ["text"]; and [imageUrl] is not tied to [messageType]: an
    accepted payload stays accepted when [imageUrl] is removed, also when
    its type is ["image"]. *)
Theorem messageSchema_reads_five_properties :
  (forall ms ms',
      (forall k, In k ["senderId"; "receiverId"; "content"; "messageType";
                       "imageUrl"] ->
                 assoc k ms = assoc k ms') ->
      messageSchema_parse (Some (JObj ms))
      = messageSchema_parse (Some (JObj ms')))
  /\ (forall data messageData,
        prop "messageType" data = None ->
        messageSchema_parse (Some data) = Valid messageData ->
        InsertMessage.messageType messageData = "text")
  /\ (forall ms ms' messageData,
        (forall k, In k ["senderId"; "receiverId"; "content"; "messageType"] ->
                   assoc k ms' = assoc k ms) ->
        assoc "imageUrl" ms' = None ->
        messageSchema_parse (Some (JObj ms)) = Valid messageData ->
        messageSchema_parse (Some (JObj ms'))
        = Valid {| InsertMessage.senderId := InsertMessage.senderId messageData;
                   InsertMessage.receiverId :=
                     InsertMessage.receiverId messageData;
                   InsertMessage.content := InsertMessage.content messageData;
                   InsertMessage.messageType :=
                     InsertMessage.messageType messageData;
                   InsertMessage.imageUrl := None |}).
Proof.
  split; [|split].
  - intros ms ms' Hsame. unfold messageSchema_parse, prop.
    rewrite !(Hsame _) by (simpl; auto 6). reflexivity.
  - intros data messageData Hnone Hp.
    apply messageSchema_parse_Valid in Hp as (_ & _ & _ & Ht & _).
    rewrite Hnone in Ht. simpl in Ht. now injection Ht as <-.
  - intros ms ms' messageData Hsame Hnone Hp.
    apply messageSchema_parse_Valid in Hp as (Hs & Hr & Hc & Ht & _).
    unfold messageSchema_parse, prop in *.
    rewrite !(Hsame _) by (simpl; auto 6).
    rewrite Hnone, Hs, Hr, Hc, Ht. reflexivity.
Qed.

Lemma messageSchema_reads_five_properties_witness :
  messageSchema_parse
    (Some (JObj [("id", JStr "forged"); ("isRead", JBool true);
                 ("senderId", JStr "alice"); ("receiverId", JStr "bob");
                 ("content", JStr "see this"); ("messageType", JStr "image")]))
  = Valid {| InsertMessage.senderId := "alice";
             InsertMessage.receiverId := "bob";
             InsertMessage.content := "see this";
             InsertMessage.messageType := "image";
             InsertMessage.imageUrl := None |}.
Proof.
  destruct messageSchema_reads_five_properties as (Hsame & _ & _).
  rewrite (Hsame _ [("senderId", JStr "alice"); ("receiverId", JStr "bob");
                    ("content", JStr "see this");
                    ("messageType", JStr "image")]).
  - reflexivity.
  - intros k [<-|[<-|[<-|[<-|[<-|[]]]]]]; reflexivity.
Defined.
